(** * FUE licence optimizer backend: tenant table registry and load pipeline

    A shallow embedding of [app/models/dynamic_models.py] and
    [app/service/data_loader_service.py], together with the small part of the
    Python runtime they call (text decoding, [str.splitlines], [csv.reader],
    [str.upper], the [\W] character class), and the properties of the
    repository's specification stated over that embedding.

    Conventions.
    - A Python [str] is a list of Unicode code points ([list N]); a [bytes]
      object is a [list byte].
    - A Python [dict] is a [gmap]; key order matters nowhere in this code
      except in [field_map], which is kept as an association list.
    - Functions that raise return a sum: [inl] for the value, [inr] for the
      exception; functions that also touch the database or the model cache
      pass the state explicitly.
    - The loaders are [async def] without any [await]: once awaited they
      run from start to end, and are modelled as plain functions.
    - What the database does is not decided by this code: each load takes
      a record saying which of its database operations fail ([Faults]).
    - Logging and printing are left out. *)

From Stdlib Require Import NArith List String Ascii Bool Lia.
From Stdlib.Strings Require Import Byte.
From stdpp Require Import gmap strings list.
Import ListNotations.

Set Warnings "-register-all".
Local Open Scope N_scope.

(** ** Python runtime: strings *)

Module Py.

(** A [str] is a sequence of code points. *)
Abbreviation str := (list N).

(** String literals of the source, as code points. *)
Definition lit (s : string) : str :=
  List.map N_of_ascii (list_ascii_of_string s).

(** [str(n)] for a non-negative integer: its decimal digits. *)
Fixpoint digits (d : Decimal.uint) : str :=
  match d with
  | Decimal.Nil => []
  | Decimal.D0 d => 48 :: digits d
  | Decimal.D1 d => 49 :: digits d
  | Decimal.D2 d => 50 :: digits d
  | Decimal.D3 d => 51 :: digits d
  | Decimal.D4 d => 52 :: digits d
  | Decimal.D5 d => 53 :: digits d
  | Decimal.D6 d => 54 :: digits d
  | Decimal.D7 d => 55 :: digits d
  | Decimal.D8 d => 56 :: digits d
  | Decimal.D9 d => 57 :: digits d
  end.

Definition str_of_nat (n : nat) : str := digits (Nat.to_uint n).

(** [s.replace(' ', '_')]: every U+0020 becomes U+005F, nothing else changes. *)
Definition replace_space_underscore (s : str) : str :=
  List.map (fun c => if c =? 32 then 95 else c) s.

(** The part of the Unicode character database that [str.upper] and the
    regular-expression class [\w] consult.  [isalnum c] is CPython's
    [Py_UNICODE_ISALNUM] (alphabetic, decimal, digit or numeric);
    [toupper_full c] is the full upper-case mapping of [c], which may be
    several code points long. *)
Record UnicodeData := {
  isalnum : N -> bool;
  toupper_full : N -> str
}.

(** What every version of the database says about U+0000..U+007F. *)
Definition ascii_isalnum (c : N) : bool :=
  ((48 <=? c) && (c <=? 57)) || ((65 <=? c) && (c <=? 90))
  || ((97 <=? c) && (c <=? 122)).

Definition ascii_toupper (c : N) : N :=
  if (97 <=? c) && (c <=? 122) then c - 32 else c.

Definition str_eqb (a b : str) : bool := bool_decide (a = b).

Definition agrees_on_ascii (U : UnicodeData) (c : N) : bool :=
  Bool.eqb (isalnum U c) (ascii_isalnum c)
  && str_eqb (toupper_full U c) [ascii_toupper c].

Definition extends_ascii (U : UnicodeData) : bool :=
  forallb (agrees_on_ascii U) (List.map N.of_nat (seq 0 128)).

(** An excerpt of the database shipped with CPython 3: exact on ASCII and on
    the code points named below, taken from UnicodeData.txt and
    SpecialCasing.txt.  Every other code point is treated here as a caseless
    non-word character, which is NOT what the real database says; the
    excerpt is only ever evaluated on strings made of the listed characters.
    - U+00DF LATIN SMALL LETTER SHARP S (Ll), upper case "SS";
    - U+01F0 LATIN SMALL LETTER J WITH CARON (Ll), upper case U+004A U+030C;
    - U+0390 GREEK SMALL LETTER IOTA WITH DIALYTIKA AND TONOS (Ll), upper
      case U+0399 U+0308 U+0301;
    - U+0399 GREEK CAPITAL LETTER IOTA (Lu), its own upper case;
    - U+0301, U+0308, U+030C combining marks (Mn): not alphanumeric,
      caseless. *)
Definition unicodedata : UnicodeData := {|
  isalnum c :=
    if c <? 128 then ascii_isalnum c
    else (c =? 0xDF) || (c =? 0x1F0) || (c =? 0x390) || (c =? 0x399);
  toupper_full c :=
    if c <? 128 then [ascii_toupper c]
    else if c =? 0xDF then [83; 83]
    else if c =? 0x1F0 then [0x4A; 0x30C]
    else if c =? 0x390 then [0x399; 0x308; 0x301]
    else [c]
|}.

Section WithUnicode.
Context (U : UnicodeData).

(** [\w] on [str] patterns: alphanumeric or underscore. *)
Definition is_word (c : N) : bool := isalnum U c || (c =? 95).

(** [re.sub(r'\W+', '', s)]: every maximal run of non-word characters is
    one match and is replaced by the empty string, so exactly the word
    characters remain, in order. *)
Fixpoint re_sub_nonword (s : str) : str :=
    match s with
    | [] => []
    | c :: s' => if is_word c then c :: re_sub_nonword s' else re_sub_nonword s'
    end.

(** [s.upper()]: the full upper-case mapping, character by character. *)
Definition upper (s : str) : str := List.flat_map (toupper_full U) s.
End WithUnicode.

(** [str.isspace] for one character (the characters Python calls
    whitespace). *)
Definition isspace (c : N) : bool :=
  ((9 <=? c) && (c <=? 13)) || ((28 <=? c) && (c <=? 32))
  || (c =? 0x85) || (c =? 0xA0) || (c =? 0x1680)
  || ((0x2000 <=? c) && (c <=? 0x200A))
  || (c =? 0x2028) || (c =? 0x2029) || (c =? 0x202F)
  || (c =? 0x205F) || (c =? 0x3000).

(** *** Exceptions *)

(** The exception classes this code meets.  [ParseError] is
    [xml.etree.ElementTree.ParseError]; [DBAPIError] stands for whatever the
    database driver raises; [DataLoaderError] is the repository's own class.
    All of them derive from [Exception]. *)
Inductive exn :=
| StopIteration
| IndexError
| UnicodeDecodeError (msg : str)
| csv_Error (msg : str)
| ParseError (msg : str)
| DBAPIError (msg : str)
| DataLoaderError (msg : str).

(** [str(e)], as interpolated by the f-strings of the loaders. *)
Definition str_of_exn (e : exn) : str :=
  match e with
  | StopIteration => []
  | IndexError => lit "list index out of range"
  | UnicodeDecodeError msg => msg
  | csv_Error msg => msg
  | ParseError msg => msg
  | DBAPIError msg => msg
  | DataLoaderError msg => msg
  end.

(** *** Text decoding *)

Abbreviation bytes := (list byte).

Definition is_continuation (b : N) : bool := (0x80 <=? b) && (b <=? 0xBF).

(** Strict UTF-8, as [codecs.utf_8_decode(input, 'strict', True)]: [None]
    stands for [UnicodeDecodeError].  Over-long forms, surrogates and code
    points above U+10FFFF are rejected by the range checks on the decoded
    value. *)
Fixpoint utf_8_decode (bs : list N) : option str :=
  match bs with
  | [] => Some []
  | b0 :: r0 =>
    if b0 <? 0x80 then cons b0 <$> utf_8_decode r0
    else if (0xC2 <=? b0) && (b0 <=? 0xDF) then
      match r0 with
      | b1 :: r1 =>
        if is_continuation b1
        then cons ((b0 - 0xC0) * 64 + (b1 - 0x80)) <$> utf_8_decode r1
        else None
      | _ => None
      end
    else if (0xE0 <=? b0) && (b0 <=? 0xEF) then
      match r0 with
      | b1 :: b2 :: r2 =>
        let cp := (b0 - 0xE0) * 4096 + (b1 - 0x80) * 64 + (b2 - 0x80) in
        if is_continuation b1 && is_continuation b2 && (0x800 <=? cp)
           && negb ((0xD800 <=? cp) && (cp <=? 0xDFFF))
        then cons cp <$> utf_8_decode r2
        else None
      | _ => None
      end
    else if (0xF0 <=? b0) && (b0 <=? 0xF4) then
      match r0 with
      | b1 :: b2 :: b3 :: r3 =>
        let cp := (b0 - 0xF0) * 262144 + (b1 - 0x80) * 4096
                  + (b2 - 0x80) * 64 + (b3 - 0x80) in
        if is_continuation b1 && is_continuation b2 && is_continuation b3
           && (0x10000 <=? cp) && (cp <=? 0x10FFFF)
        then cons cp <$> utf_8_decode r3
        else None
      | _ => None
      end
    else None
  end.

(** [b.decode('utf-8-sig')]: a leading byte-order mark EF BB BF is dropped,
    the rest is strict UTF-8. *)
Definition decode_utf_8_sig (b : bytes) : option str :=
  match List.map Byte.to_N b with
  | 0xEF :: 0xBB :: 0xBF :: rest => utf_8_decode rest
  | input => utf_8_decode input
  end.

(** [b.decode('latin-1')]: byte [n] is code point [n]; never raises. *)
Definition decode_latin_1 (b : bytes) : option str :=
  Some (List.map Byte.to_N b).

(** The decoding table of [encodings/cp1252.py]; [None] is UNDEFINED. *)
Definition cp1252_table (b : N) : option N :=
  if (b <? 0x80) || (0xA0 <=? b) then Some b
  else nth (N.to_nat (b - 0x80))
    [Some 0x20AC; None; Some 0x201A; Some 0x0192; Some 0x201E; Some 0x2026;
     Some 0x2020; Some 0x2021; Some 0x02C6; Some 0x2030; Some 0x0160;
     Some 0x2039; Some 0x0152; None; Some 0x017D; None;
     None; Some 0x2018; Some 0x2019; Some 0x201C; Some 0x201D; Some 0x2022;
     Some 0x2013; Some 0x2014; Some 0x02DC; Some 0x2122; Some 0x0161;
     Some 0x203A; Some 0x0153; None; Some 0x017E; Some 0x0178] None.

Definition hex_digit (n : N) : N := if n <? 10 then 48 + n else 87 + n.

(** The message of the [UnicodeDecodeError] of a charmap codec. *)
Definition charmap_error (b : N) (position : nat) : exn :=
  UnicodeDecodeError
    (lit "'charmap' codec can't decode byte 0x"
     ++ [hex_digit (b / 16); hex_digit (b mod 16)]
     ++ lit " in position " ++ str_of_nat position
     ++ lit ": character maps to <undefined>").

Fixpoint charmap_decode_1252 (position : nat) (bs : list N) : str + exn :=
  match bs with
  | [] => inl []
  | b :: rest =>
    match cp1252_table b with
    | None => inr (charmap_error b position)
    | Some c =>
      match charmap_decode_1252 (S position) rest with
      | inl s => inl (c :: s)
      | inr e => inr e
      end
    end
  end.

(** [b.decode('cp1252')]. *)
Definition decode_cp1252 (b : bytes) : str + exn :=
  charmap_decode_1252 0 (List.map Byte.to_N b).

(** *** [str.splitlines] *)

(** The line boundaries of [str.splitlines()]. *)
Definition is_linebreak (c : N) : bool :=
  ((10 <=? c) && (c <=? 13)) || ((0x1C <=? c) && (c <=? 0x1E))
  || (c =? 0x85) || (c =? 0x2028) || (c =? 0x2029).

(** [cur] is the line being collected.  CR LF counts as one boundary; the
    boundaries are not kept; no empty line is added after a final
    boundary. *)
Fixpoint splitlines_from (cur s : str) : list str :=
  match s with
  | [] => match cur with [] => [] | _ => [cur] end
  | c :: s' =>
    if is_linebreak c then
      match s' with
      | 10 :: s'' =>
        if c =? 13 then cur :: splitlines_from [] s''
        else cur :: splitlines_from [] s'
      | _ => cur :: splitlines_from [] s'
      end
    else splitlines_from (cur ++ [c]) s'
  end.

Definition splitlines (s : str) : list str := splitlines_from [] s.

(** *** [csv.reader] with the default ("excel") dialect

    delimiter comma, quotechar double quote, doublequote, no escapechar, no
    skipinitialspace, QUOTE_MINIMAL, not strict.  The model follows
    [parse_process_char] and [Reader_iternext] of CPython's [_csv.c]
    (3.11 and later, where a NUL character is ordinary data); the states
    that only an escapechar reaches are left out. *)

Inductive ParserState :=
| START_RECORD | START_FIELD | IN_FIELD | IN_QUOTED_FIELD
| QUOTE_IN_QUOTED_FIELD | EAT_CRNL.

Record ReaderObj := {
  state : ParserState;
  fields : list str;   (* fields of the record being read *)
  field : str          (* characters of the field being read *)
}.

Definition field_limit : N := 131072.

Definition parse_reset : ReaderObj :=
  {| state := START_RECORD; fields := []; field := [] |}.

Definition set_state (st : ParserState) (r : ReaderObj) : ReaderObj :=
  {| state := st; fields := fields r; field := field r |}.

Definition parse_save_field (r : ReaderObj) : ReaderObj :=
  {| state := state r; fields := fields r ++ [field r]; field := [] |}.

Definition parse_add_char (r : ReaderObj) (c : N) : ReaderObj + exn :=
  if field_limit <=? N.of_nat (length (field r))
  then inr (csv_Error (lit "field larger than field limit (131072)"))
  else inl {| state := state r; fields := fields r; field := field r ++ [c] |}.

Definition is_crnl (c : N) : bool := (c =? 10) || (c =? 13).

(** Add a character, then move to state [st]. *)
Definition add_char_then (st : ParserState) (r : ReaderObj) (c : N)
  : ReaderObj + exn :=
  match parse_add_char r c with
  | inl r' => inl (set_state st r')
  | inr e => inr e
  end.

(** One input character; [None] is the end-of-line marker that
    [Reader_iternext] feeds after the last character of each line. *)
Definition parse_process_char (r : ReaderObj) (c : option N) : ReaderObj + exn :=
  let start_field (r : ReaderObj) : ReaderObj + exn :=
    match c with
    | None => inl (set_state START_RECORD (parse_save_field r))
    | Some ch =>
      if is_crnl ch then inl (set_state EAT_CRNL (parse_save_field r))
      else if ch =? 34 then inl (set_state IN_QUOTED_FIELD r)
      else if ch =? 44 then inl (parse_save_field r)
      else add_char_then IN_FIELD r ch
    end in
  match state r with
  | START_RECORD =>
    match c with
    | None => inl r
    | Some ch =>
      if is_crnl ch then inl (set_state EAT_CRNL r)
      else start_field (set_state START_FIELD r)
    end
  | START_FIELD => start_field r
  | IN_FIELD =>
    match c with
    | None => inl (set_state START_RECORD (parse_save_field r))
    | Some ch =>
      if is_crnl ch then inl (set_state EAT_CRNL (parse_save_field r))
      else if ch =? 44 then inl (set_state START_FIELD (parse_save_field r))
      else parse_add_char r ch
    end
  | IN_QUOTED_FIELD =>
    match c with
    | None => inl r
    | Some ch =>
      if ch =? 34 then inl (set_state QUOTE_IN_QUOTED_FIELD r)
      else parse_add_char r ch
    end
  | QUOTE_IN_QUOTED_FIELD =>
    match c with
    | None => inl (set_state START_RECORD (parse_save_field r))
    | Some ch =>
      if ch =? 34 then add_char_then IN_QUOTED_FIELD r ch
      else if ch =? 44 then inl (set_state START_FIELD (parse_save_field r))
      else if is_crnl ch then inl (set_state EAT_CRNL (parse_save_field r))
      else add_char_then IN_FIELD r ch
    end
  | EAT_CRNL =>
    match c with
    | None => inl (set_state START_RECORD r)
    | Some ch =>
      if is_crnl ch then inl r
      else inr (csv_Error (lit "new-line character seen in unquoted field - do you need to open the file with newline=''?"))
    end
  end.

Fixpoint parse_chars (r : ReaderObj) (line : str) : ReaderObj + exn :=
  match line with
  | [] => inl r
  | c :: line' =>
    match parse_process_char r (Some c) with
    | inl r' => parse_chars r' line'
    | inr e => inr e
    end
  end.

(** One line of input followed by the end-of-line marker. *)
Definition parse_line (r : ReaderObj) (line : str) : ReaderObj + exn :=
  match parse_chars r line with
  | inl r' => parse_process_char r' None
  | inr e => inr e
  end.

(** Everything the reader yields when iterated to the end: the records in
    order, and how the iteration ends ([None]: exhausted, the next [next()]
    raises [StopIteration]; [Some e]: the next [next()] raises [e]).  [r] is
    the reader in the middle of a record; a record is complete when a line
    leaves the parser in [START_RECORD]; at the end of the input a pending
    field or an open quoted field still makes a last record. *)
Fixpoint reader_from (r : ReaderObj) (lines : list str)
  : list (list str) * option exn :=
  match lines with
  | [] =>
    match field r, state r with
    | [], START_RECORD | [], START_FIELD | [], IN_FIELD
    | [], QUOTE_IN_QUOTED_FIELD | [], EAT_CRNL => ([], None)
    | _, _ => ([fields (parse_save_field r)], None)
    end
  | line :: rest =>
    match parse_line r line with
    | inr e => ([], Some e)
    | inl r' =>
      match state r' with
      | START_RECORD =>
        let '(rows, fin) := reader_from parse_reset rest in
        (fields r' :: rows, fin)
      | _ => reader_from r' rest
      end
    end
  end.

Definition csv_reader (lines : list str) : list (list str) * option exn :=
  reader_from parse_reset lines.

End Py.

(** ** Python runtime: xml.etree.ElementTree *)

Module ET.
Import Py.

(** An element: its tag (a namespaced tag in Clark notation, [{uri}local]),
    its text ([None] when there is no character data before the first
    child) and its children in document order. *)
Inductive Element :=
| Elem (tag : str) (text : option str) (children : list Element).

Definition tag (e : Element) : str := match e with Elem t _ _ => t end.
Definition text (e : Element) : option str := match e with Elem _ x _ => x end.
Definition children (e : Element) : list Element :=
  match e with Elem _ _ cs => cs end.

(** What [ET.parse(BytesIO(xml_content))] makes of the uploaded bytes: a
    [ParseError] with the parser's message, or the tree. *)
Inductive parse_outcome :=
| Malformed (msg : str)
| WellFormed (root : Element).

(** [elem.iter()] without [elem] itself: all descendants, document order. *)
Fixpoint descendants (e : Element) : list Element :=
  match e with
  | Elem _ _ cs => List.flat_map (fun c => c :: descendants c) cs
  end.

(** The path step [/name]: the children with that tag. *)
Definition children_named (name : str) (e : Element) : list Element :=
  List.filter (fun c => str_eqb (tag c) name) (children e).

(** [root.findall('.//asx:values/DOWNLOAD/item', namespaces)] with
    [namespaces = {'asx': 'http://www.sap.com/abapxml'}]. *)
Definition findall_items (root : Element) : list Element :=
  let values :=
    List.filter
      (fun e => str_eqb (tag e) (lit "{http://www.sap.com/abapxml}values"))
      (descendants root) in
  let downloads := List.flat_map (children_named (lit "DOWNLOAD")) values in
  List.flat_map (children_named (lit "item")) downloads.

(** [item.findtext(name)]: [None] when no child has the tag, else the text
    of the first such child, the empty string when it has none. *)
Definition findtext (item : Element) (name : str) : option str :=
  match children_named name item with
  | [] => None
  | c :: _ => Some (default [] (text c))
  end.

(** [item.findtext(name, dflt)]. *)
Definition findtext_or (item : Element) (name : str) (dflt : str) : str :=
  default dflt (findtext item name).

End ET.

(** ** The database behind the SQLAlchemy session *)

Module Database.
Import Py.

(** A mapped object: the keyword arguments its model was built with, column
    name and value.  The surrogate [id] is assigned by the database and is
    not part of the model. *)
Abbreviation row := (list (string * str)).

(** - [tables]: the tables that exist ([inspector.has_table]); DDL goes
      through the engine and is not part of the session's transaction.
    - [created]: every table name a CREATE TABLE was executed for, in order.
    - [committed]: the rows of each table as committed, what any later
      reader sees (no entry: no rows).
    - [session]: the rows as the session's open transaction sees them.
    - [pending]: objects added to the session and not flushed yet, each with
      the table of its model. *)
Record Db := {
  tables : gset str;
  created : list str;
  committed : gmap str (list row);
  session : gmap str (list row);
  pending : list (str * row)
}.

(** The rows of a table in a snapshot. *)
Definition rows_of (snapshot : gmap str (list row)) (table : str) : list row :=
  default [] (snapshot !! table).

(** What the environment makes fail during one load: [Some msg] makes the
    operation raise [DBAPIError msg], [None] lets it run. *)
Record Faults := {
  create_fault : option str;
  delete_fault : option str;
  commit_fault : option str
}.

Definition no_faults : Faults :=
  {| create_fault := None; delete_fault := None; commit_fault := None |}.

Definition has_table (d : Db) (table : str) : bool :=
  bool_decide (table ∈ tables d).

(** [model_class.__table__.create(bind=db_engine)]. *)
Definition create_table (fault : option str) (table : str) (d : Db)
  : (unit + exn) * Db :=
  match fault with
  | Some msg => (inr (DBAPIError msg), d)
  | None =>
    if has_table d table
    then (inr (DBAPIError (lit "relation already exists")), d)
    else (inl tt,
          {| tables := {[table]} ∪ tables d;
             created := created d ++ [table];
             committed := committed d;
             session := session d;
             pending := pending d |})
  end.

(** [db.query(Model).delete()]: deletes every row of the table inside the
    transaction and returns how many there were. *)
Definition query_delete (fault : option str) (table : str) (d : Db)
  : (nat + exn) * Db :=
  match fault with
  | Some msg => (inr (DBAPIError msg), d)
  | None =>
    (inl (length (rows_of (session d) table)),
     {| tables := tables d;
        created := created d;
        committed := committed d;
        session := <[table := []]> (session d);
        pending := pending d |})
  end.

(** [db.add_all(objects)]: the objects become pending. *)
Definition add_all (table : str) (objects : list row) (d : Db)
  : (unit + exn) * Db :=
  (inl tt,
   {| tables := tables d;
      created := created d;
      committed := committed d;
      session := session d;
      pending := pending d ++ List.map (fun o => (table, o)) objects |}).

(** The flush at commit: every pending object is inserted, in order. *)
Definition flush (snapshot : gmap str (list row)) (objs : list (str * row))
  : gmap str (list row) :=
  fold_left (fun m o => <[o.1 := rows_of m o.1 ++ [o.2]]> m) objs snapshot.

(** [db.commit()]: flush, then make the transaction's view the committed
    one.  When it fails nothing becomes visible. *)
Definition commit (fault : option str) (d : Db) : (unit + exn) * Db :=
  match fault with
  | Some msg => (inr (DBAPIError msg), d)
  | None =>
    let s := flush (session d) (pending d) in
    (inl tt,
     {| tables := tables d;
        created := created d;
        committed := s;
        session := s;
        pending := [] |})
  end.

(** [db.rollback()]: the transaction's changes and the pending objects
    are dropped. *)
Definition rollback (d : Db) : (unit + exn) * Db :=
  (inl tt,
   {| tables := tables d;
      created := created d;
      committed := committed d;
      session := committed d;
      pending := [] |}).

End Database.

(** ** app/models/dynamic_models.py *)

Module DynamicModels.
Import Py.

Section WithUnicode.
Context (U : UnicodeData).

Definition clean_client_name (client_name : str) : str :=
    upper U (re_sub_nonword U (replace_space_underscore client_name)).

Definition clean_system_name (system_name : str) : str :=
    upper U (re_sub_nonword U (replace_space_underscore system_name)).

Definition clean_system_release_versionInfo (system_release_version : str) : str :=
    upper U (re_sub_nonword U (replace_space_underscore system_release_version)).

Definition get_lice_data_tablename (client_name system_name : str) : str :=
    let client := clean_client_name client_name in
    let system := clean_system_name system_name in
    lit "Z_FUE_" ++ client ++ lit "_" ++ system ++ lit "_ROLE_OBJ_LICENSE_INFO".

Definition get_auth_data_tablename (client_name system_name : str) : str :=
    let client := clean_client_name client_name in
    let system := clean_system_name system_name in
    lit "Z_FUE_" ++ client ++ lit "_" ++ system ++ lit "_ROLE_AUTH_OBJ_DATA".

Definition get_role_fiori_data_tablename (client_name system_name : str) : str :=
    let client := clean_client_name client_name in
    let system := clean_system_name system_name in
    lit "Z_FUE_" ++ client ++ lit "_" ++ system ++ lit "_ROLE_FIORI_DATA".

Definition get_role_master_derived_data_tablename (client_name system_name : str) : str :=
    let client := clean_client_name client_name in
    let system := clean_system_name system_name in
    lit "Z_FUE_" ++ client ++ lit "_" ++ system ++ lit "_ROLE_MASTER_DERVI_DATA".

Definition get_user_data_tablename (client_name system_name : str) : str :=
    let client := clean_client_name client_name in
    let system := clean_system_name system_name in
    lit "Z_FUE_" ++ client ++ lit "_" ++ system ++ lit "_USER_DATA".

Definition get_user_role_data_tablename (client_name system_name : str) : str :=
    let client := clean_client_name client_name in
    let system := clean_system_name system_name in
    lit "Z_FUE_" ++ client ++ lit "_" ++ system ++ lit "_USER_ROLE_DATA".
End WithUnicode.

(** The mixin a dynamic model class inherits its columns from. *)
Inductive BaseClass :=
| BaseLiceData | BaseAuthData | BaseFioriRoleData
| RoleMasterDerviData | UserData | UserRoleData.

(** A dynamic model class: [type(name, (base, Base), {"__tablename__": ...})]. *)
Record Model := {
  class_name : str;
  base : BaseClass;
  tablename : str
}.

(** The module state: [_dynamic_models_cache], and every class that a call
    of [type(...)] has constructed so far, in order. *)
Record Registry := {
  dynamic_models_cache : gmap str Model;
  constructed : list Model
}.

Definition empty_registry : Registry :=
  {| dynamic_models_cache := ∅; constructed := [] |}.

(** The body shared by the six [create_*] functions once [table_name] is
    computed: return the cached class, or construct one and cache it. *)
Definition cached_or_new (table_name : str) (new_class : Model) (r : Registry)
  : Model * Registry :=
  match dynamic_models_cache r !! table_name with
  | Some m => (m, r)
  | None =>
    (new_class,
     {| dynamic_models_cache := <[table_name := new_class]> (dynamic_models_cache r);
        constructed := constructed r ++ [new_class] |})
  end.

Section WithUnicode.
Context (U : UnicodeData).

Definition dynamic_class_name (client_name system_name : str) (suffix : string) : str :=
  lit "Z_FUE_" ++ clean_client_name U client_name ++ lit "_"
  ++ clean_system_name U system_name ++ lit suffix.

Definition create_lice_data_model (client_name system_name : str) (r : Registry)
  : Model * Registry :=
  let table_name := get_lice_data_tablename U client_name system_name in
  cached_or_new table_name
    {| class_name := dynamic_class_name client_name system_name "LiceData";
       base := BaseLiceData; tablename := table_name |} r.

Definition create_auth_data_model (client_name system_name : str) (r : Registry)
  : Model * Registry :=
  let table_name := get_auth_data_tablename U client_name system_name in
  cached_or_new table_name
    {| class_name := dynamic_class_name client_name system_name "AuthData";
       base := BaseAuthData; tablename := table_name |} r.

Definition create_role_fiori_data_model (client_name system_name : str) (r : Registry)
  : Model * Registry :=
  let table_name := get_role_fiori_data_tablename U client_name system_name in
  cached_or_new table_name
    {| class_name := dynamic_class_name client_name system_name "RoleFioriData";
       base := BaseFioriRoleData; tablename := table_name |} r.

Definition create_role_master_derived_data (client_name system_name : str) (r : Registry)
  : Model * Registry :=
  let table_name := get_role_master_derived_data_tablename U client_name system_name in
  cached_or_new table_name
    {| class_name := dynamic_class_name client_name system_name "MasterDerivedData";
       base := RoleMasterDerviData; tablename := table_name |} r.

Definition create_user_data (client_name system_name : str) (r : Registry)
  : Model * Registry :=
  let table_name := get_user_data_tablename U client_name system_name in
  cached_or_new table_name
    {| class_name := dynamic_class_name client_name system_name "UserData";
       base := UserData; tablename := table_name |} r.

Definition create_user_role_data (client_name system_name : str) (r : Registry)
  : Model * Registry :=
  let table_name := get_user_role_data_tablename U client_name system_name in
  cached_or_new table_name
    {| class_name := dynamic_class_name client_name system_name "UserRoleData";
       base := UserRoleData; tablename := table_name |} r.
End WithUnicode.

(** [ensure_table_exists(db_engine, model_class)]: create the table unless
    the inspector finds it; an error of the creation is re-raised. *)
Definition ensure_table_exists (fault : option str) (model_class : Model)
  (d : Database.Db) : (unit + exn) * Database.Db :=
  let table_name := tablename model_class in
  if negb (Database.has_table d table_name)
  then Database.create_table fault table_name d
  else (inl tt, d).

End DynamicModels.

(** ** app/service/data_loader_service.py *)

Module DataLoaderService.
Import Py ET Database DynamicModels.

(** The state a load runs in: the module-level model cache and the
    database with its session. *)
Record World := {
  registry : Registry;
  db : Db
}.

(** A computation that may raise and that changes the world. *)
Definition M (A : Type) : Type := World -> (A + exn) * World.

Definition ret {A} (a : A) : M A := fun w => (inl a, w).

Definition raise {A} (e : exn) : M A := fun w => (inr e, w).

Definition bind {A B} (m : M A) (k : A -> M B) : M B :=
  fun w =>
    match m w with
    | (inl a, w') => k a w'
    | (inr e, w') => (inr e, w')
    end.

(** [try: m  except Exception as e: handler e]. *)
Definition try_except {A} (m : M A) (handler : exn -> M A) : M A :=
  fun w =>
    match m w with
    | (inl a, w') => (inl a, w')
    | (inr e, w') => handler e w'
    end.

Notation "x <- m ;; k" := (bind m (fun x => k))
  (at level 100, m at next level, right associativity).
Notation "m ;; k" := (bind m (fun _ => k))
  (at level 100, right associativity).

Definition on_registry {A} (f : Registry -> A * Registry) : M A :=
  fun w =>
    let '(a, r) := f (registry w) in
    (inl a, {| registry := r; db := db w |}).

Definition on_db {A} (f : Db -> (A + exn) * Db) : M A :=
  fun w =>
    let '(a, d) := f (db w) in
    (a, {| registry := registry w; db := d |}).

(** A value that may be an exception, run where it stands. *)
Definition lift {A} (x : A + exn) : M A :=
  match x with
  | inl a => ret a
  | inr e => raise e
  end.

(** The dictionary every loader returns. *)
Record LoadResult := {
  message : str;
  table_name : option str;
  records_loaded : nat
}.

Definition success_result (table : str) (objects_to_load : list row) : LoadResult :=
  let msg := lit "Successfully loaded " ++ str_of_nat (length objects_to_load)
             ++ lit " records into " ++ table in
  {| message := msg; table_name := Some table;
     records_loaded := length objects_to_load |}.

(** The first [try] of every loader: truncate, and on any error roll back
    and raise [DataLoaderError]. *)
Definition truncate (F : Faults) (table : str) : M nat :=
  try_except
    (on_db (query_delete (delete_fault F) table))
    (fun e =>
       on_db rollback ;;
       raise (DataLoaderError
                (lit "Failed to truncate table " ++ table ++ lit ": "
                 ++ str_of_exn e))).

(** *** The XML loader *)

(** The dictionary stored in [roles_info] for a header item. *)
Definition role_header_info (item : Element) : gmap string str :=
  <["AGR_TEXT"%string := findtext_or item (lit "AGR_TEXT") []]>
  (<["AGR_CLASSIF"%string := findtext_or item (lit "AGR_CLASSIF") []]>
  (<["AGR_RATIO"%string := findtext_or item (lit "AGR_RATIO") []]>
  (<["AGR_OBJECTS"%string := findtext_or item (lit "AGR_OBJECTS") (lit "0")]>
  (<["AGR_USERS"%string := findtext_or item (lit "AGR_USERS") (lit "0")]> ∅)))).

(** [role_specific_info.get(key, dflt)]. *)
Definition dict_get (d : gmap string str) (key : string) (dflt : str) : str :=
  default dflt (d !! key).

(** The keyword arguments of [DynamicLiceModel(...)] for a detail item. *)
Definition lice_data_obj (role_specific_info : gmap string str)
  (agr_name auth_obj : str) (item : Element) : row :=
  [ ("AGR_NAME"%string, agr_name);
    ("OBJECT"%string, auth_obj);
    ("TTEXT"%string, findtext_or item (lit "TTEXT") []);
    ("FIELD"%string, findtext_or item (lit "FIELD") []);
    ("LOW"%string, findtext_or item (lit "LOW") []);
    ("HIGH"%string, findtext_or item (lit "HIGH") []);
    ("CLASSIF_S4"%string, findtext_or item (lit "CLASSIF_S4") []);
    ("AGR_TEXT"%string,
     dict_get role_specific_info "AGR_TEXT" (findtext_or item (lit "AGR_TEXT") []));
    ("AGR_CLASSIF"%string,
     dict_get role_specific_info "AGR_CLASSIF" (findtext_or item (lit "AGR_CLASSIF") []));
    ("AGR_RATIO"%string,
     dict_get role_specific_info "AGR_RATIO" (findtext_or item (lit "AGR_RATIO") []));
    ("AGR_OBJECTS"%string,
     dict_get role_specific_info "AGR_OBJECTS" (findtext_or item (lit "AGR_OBJECTS") (lit "0")));
    ("AGR_USERS"%string,
     dict_get role_specific_info "AGR_USERS" (findtext_or item (lit "AGR_USERS") (lit "0"))) ].

(** The truth value of a [str]: non-empty. *)
Definition truthy (s : str) : bool := match s with [] => false | _ => true end.

(** One turn of [for item in items], on the pair
    [(roles_info, objects_to_load)]. *)
Definition item_step (st : gmap str (gmap string str) * list row) (item : Element)
  : gmap str (gmap string str) * list row :=
  let '(roles_info, objects_to_load) := st in
  let agr_name := findtext_or item (lit "AGR_NAME") [] in
  let auth_obj := findtext_or item (lit "OBJECT") [] in
  if negb (truthy auth_obj) then
    let agr_classif_check := findtext item (lit "AGR_CLASSIF") in
    if truthy agr_name && bool_decide (is_Some agr_classif_check)
    then (<[agr_name := role_header_info item]> roles_info, objects_to_load)
    else (roles_info, objects_to_load)
  else
    let role_specific_info := default ∅ (roles_info !! agr_name) in
    (roles_info,
     objects_to_load ++ [lice_data_obj role_specific_info agr_name auth_obj item]).

Definition items_loop (items : list Element)
  : gmap str (gmap string str) * list row :=
  fold_left item_step items (∅, []).

(** From [ET.parse] to the list of objects: the part of the second [try]
    that does not touch the database. *)
Definition parse_lice_xml (xml : parse_outcome) : list row + exn :=
  match xml with
  | Malformed msg => inr (ParseError msg)
  | WellFormed root =>
    let items := findall_items root in
    match items with
    | [] => inr (DataLoaderError (lit "No <item> elements found in XML."))
    | _ =>
      let objects_to_load := (items_loop items).2 in
      match objects_to_load with
      | [] => inr (DataLoaderError (lit "No valid object data found."))
      | _ => inl objects_to_load
      end
    end
  end.

Section WithUnicode.
Context (U : UnicodeData).

(** [xml_file] is [None] when no file was provided, else what the parser
    makes of its content. *)
Definition load_lice_data_from_xml_upload (F : Faults)
  (xml_file : option parse_outcome) (client_name system_name : str)
  : M LoadResult :=
  match xml_file with
  | None =>
    ret {| message := lit "No XML file provided, skipping load.";
           table_name := None; records_loaded := 0 |}
  | Some xml_content =>
    DynamicLiceModel <- on_registry (create_lice_data_model U client_name system_name) ;;
    let table := tablename DynamicLiceModel in
    on_db (ensure_table_exists (create_fault F) DynamicLiceModel) ;;
    truncate F table ;;
    try_except
      (objects_to_load <- lift (parse_lice_xml xml_content) ;;
       on_db (add_all table objects_to_load) ;;
       on_db (commit (commit_fault F)) ;;
       ret (success_result table objects_to_load))
      (fun e =>
         match e with
         | ParseError _ =>
           on_db rollback ;;
           raise (DataLoaderError (lit "XML ParseError: " ++ str_of_exn e))
         | _ =>
           on_db rollback ;;
           raise (DataLoaderError (lit "Failed loading XML data: " ++ str_of_exn e))
         end)
  end.
End WithUnicode.

(** *** The CSV loaders *)

(** The three nested [try]s around [decode]. *)
Definition decode_csv_content (csv_content : bytes) : str + exn :=
  match decode_utf_8_sig csv_content with
  | Some csv_text => inl csv_text
  | None =>
    match decode_latin_1 csv_content with
    | Some csv_text => inl csv_text
    | None => decode_cp1252 csv_content
    end
  end.

(** [{model_field: row[csv_index] for model_field, csv_index in
    field_map.items()}]: [IndexError] at the first index the row lacks. *)
Fixpoint obj_data (field_map : list (string * nat)) (csv_row : list str)
  : row + exn :=
  match field_map with
  | [] => inl []
  | (model_field, csv_index) :: rest =>
    match csv_row !! csv_index with
    | None => inr IndexError
    | Some value =>
      match obj_data rest csv_row with
      | inl d => inl ((model_field, value) :: d)
      | inr e => inr e
      end
    end
  end.

Definition row_error (i : nat) (detail : str) : exn :=
  DataLoaderError (lit "Error processing row " ++ str_of_nat (i + 2) ++ lit ": " ++ detail).

Definition not_enough_columns (i : nat) : exn :=
  DataLoaderError
    (lit "Error processing row " ++ str_of_nat (i + 2) ++ lit ": Not enough columns.").

(** [for i, row in enumerate(csv_reader)] from index [i] on, with its inner
    [try]; [objects_to_load] is the list built so far. *)
Fixpoint rows_loop (field_map : list (string * nat)) (i : nat)
  (csv_rows : list (list str)) (objects_to_load : list row) : list row + exn :=
  match csv_rows with
  | [] => inl objects_to_load
  | csv_row :: rest =>
    match obj_data field_map csv_row with
    | inl d => rows_loop field_map (S i) rest (objects_to_load ++ [d])
    | inr IndexError => inr (not_enough_columns i)
    | inr row_e => inr (row_error i (str_of_exn row_e))
    end
  end.

(** From the bytes of the file to the list of objects: decode, split,
    skip one record with [next(csv_reader)], map every further record.
    When the reader itself raises, it does so at the record it fails on,
    after the records before it were mapped. *)
Definition parse_csv (field_map : list (string * nat)) (csv_content : bytes)
  : list row + exn :=
  match decode_csv_content csv_content with
  | inr e => inr e
  | inl csv_text =>
    let '(records, fin) := csv_reader (splitlines csv_text) in
    match records with
    | [] => inr (default StopIteration fin)
    | _header :: data =>
      match rows_loop field_map 0 data [] with
      | inr e => inr e
      | inl objects_to_load =>
        match fin with
        | Some e => inr e
        | None => inl objects_to_load
        end
      end
    end
  end.

(** The body shared by the five CSV loaders, which differ in the model
    they create and in [field_map] only. *)
Definition load_csv_upload (create_model : str -> str -> Registry -> Model * Registry)
  (field_map : list (string * nat)) (F : Faults)
  (csv_file : option bytes) (client_name system_name : str) : M LoadResult :=
  match csv_file with
  | None =>
    ret {| message := lit "No CSV file provided, skipping load.";
           table_name := None; records_loaded := 0 |}
  | Some csv_content =>
    DynamicModel <- on_registry (create_model client_name system_name) ;;
    let table := tablename DynamicModel in
    on_db (ensure_table_exists (create_fault F) DynamicModel) ;;
    truncate F table ;;
    try_except
      (objects_to_load <- lift (parse_csv field_map csv_content) ;;
       on_db (add_all table objects_to_load) ;;
       on_db (commit (commit_fault F)) ;;
       ret (success_result table objects_to_load))
      (fun e =>
         on_db rollback ;;
         raise (DataLoaderError (lit "Failed loading CSV data: " ++ str_of_exn e)))
  end.

Definition auth_field_map : list (string * nat) :=
  [("AGR_NAME", 0); ("OBJECT", 1); ("AUTH_NAME", 2); ("FIELD_NAME", 3);
   ("AUTH_VALUE_LOW", 4); ("AUTH_VALUE_HIGH", 5)]%string%nat.

Definition role_fiori_field_map : list (string * nat) :=
  [("ROLE", 0); ("ROLE_DESCRIPTION", 1);
   ("TILE_TARGET_MAPPING_MATCHING_TEXT", 2); ("SEMANTIC_OBJECT", 3);
   ("ACTION", 4); ("TITLE_SUBTITLE_INFORMATION", 5); ("APPLICATION_TYPE", 6);
   ("APPLICATION_RESOURCES", 7); ("SAP_FIORI_ID", 8);
   ("APPLICATION_COMPONENT_ID", 9); ("ODATA_SERVICE_NAME", 10);
   ("CATALOG_ID", 11); ("CATALOG_TITLE", 12)]%string%nat.

Definition master_derived_field_map : list (string * nat) :=
  [("DERIVED_ROLE", 0); ("MASTER_ROLE", 1)]%string%nat.

Definition user_role_field_map : list (string * nat) :=
  [("ROLE", 0); ("USER_NAME", 1)]%string%nat.

Definition user_field_map : list (string * nat) :=
  [("USER", 0); ("FULL_NAME", 1); ("ID", 2); ("CURRENT_CLASSIFICATION", 3);
   ("TARGET_CLASSIFICATION", 4); ("RATIO", 5); ("REF_USER", 6);
   ("USER_GROUP", 7); ("LAST_LOGON", 8); ("COUNT", 9)]%string%nat.

Section WithUnicode.
Context (U : UnicodeData).

Definition load_auth_data_from_csv_upload :=
  load_csv_upload (create_auth_data_model U) auth_field_map.

Definition load_role_fiori_map_data_from_csv_upload :=
  load_csv_upload (create_role_fiori_data_model U) role_fiori_field_map.

Definition load_master_derived_role_data_from_csv_upload :=
  load_csv_upload (create_role_master_derived_data U) master_derived_field_map.

Definition load_user_role_map_data_from_csv_upload :=
  load_csv_upload (create_user_role_data U) user_role_field_map.

Definition load_user_data_from_csv_upload :=
  load_csv_upload (create_user_data U) user_field_map.
End WithUnicode.

End DataLoaderService.

(** ** Vocabulary of the specification *)

Module Spec.
Import Py ET Database DynamicModels DataLoaderService.

(** Normalize, read off the words of the specification: upper-case, then
    replace whitespace by underscore, then strip what is neither
    alphanumeric nor underscore. *)
Definition normalize_as_specified (U : UnicodeData) (name : str) : str :=
  re_sub_nonword U
    (List.map (fun c => if isspace c then 95 else c) (upper U name)).

(** What one input character contributes to the cleaned name. *)
Definition cleaned_char (U : UnicodeData) (c : N) : str :=
  if c =? 32 then [95]
  else if is_word U c then toupper_full U c
  else [].

(** The characters a cleaned ASCII name is made of: digits, upper-case
    letters and the underscore. *)
Definition settled (c : N) : bool :=
  ((48 <=? c) && (c <=? 57)) || ((65 <=? c) && (c <=? 90)) || (c =? 95).

(** The six record kinds and their model constructors and table names. *)
Inductive Kind :=
| LiceData | AuthData | RoleFioriData | MasterDerivedData | UserRoleMap | UserMaster.

Definition create_model (U : UnicodeData) (k : Kind)
  : str -> str -> Registry -> Model * Registry :=
  match k with
  | LiceData => create_lice_data_model U
  | AuthData => create_auth_data_model U
  | RoleFioriData => create_role_fiori_data_model U
  | MasterDerivedData => create_role_master_derived_data U
  | UserRoleMap => create_user_role_data U
  | UserMaster => create_user_data U
  end.

Definition get_tablename (U : UnicodeData) (k : Kind) : str -> str -> str :=
  match k with
  | LiceData => get_lice_data_tablename U
  | AuthData => get_auth_data_tablename U
  | RoleFioriData => get_role_fiori_data_tablename U
  | MasterDerivedData => get_role_master_derived_data_tablename U
  | UserRoleMap => get_user_role_data_tablename U
  | UserMaster => get_user_data_tablename U
  end.

(** A run of [ensure_table_exists] calls, each with its own outcome of the
    creation; a call that raises leaves the database as it was. *)
Definition ensure_each (calls : list (option str * Model)) (d : Db) : Db :=
  fold_left (fun d c => (ensure_table_exists c.1 c.2 d).2) calls d.

(** The creation log is sound: no name twice, and only existing tables. *)
Definition creation_log_ok (d : Db) : Prop :=
  NoDup (created d) /\ forall t, t ∈ created d -> t ∈ tables d.

(** The five CSV record kinds, their loaders and their column counts. *)
Inductive CsvKind :=
| CsvAuth | CsvRoleFiori | CsvMasterDerived | CsvUserRole | CsvUser.

Definition kind_of (k : CsvKind) : Kind :=
  match k with
  | CsvAuth => AuthData
  | CsvRoleFiori => RoleFioriData
  | CsvMasterDerived => MasterDerivedData
  | CsvUserRole => UserRoleMap
  | CsvUser => UserMaster
  end.

Definition field_map (k : CsvKind) : list (string * nat) :=
  match k with
  | CsvAuth => auth_field_map
  | CsvRoleFiori => role_fiori_field_map
  | CsvMasterDerived => master_derived_field_map
  | CsvUserRole => user_role_field_map
  | CsvUser => user_field_map
  end.

(** The number of columns the schema of the kind requires. *)
Definition required_columns (k : CsvKind) : nat :=
  match k with
  | CsvAuth => 6
  | CsvRoleFiori => 13
  | CsvMasterDerived => 2
  | CsvUserRole => 2
  | CsvUser => 10
  end.

Definition load_csv (U : UnicodeData) (k : CsvKind)
  : Faults -> option bytes -> str -> str -> M LoadResult :=
  match k with
  | CsvAuth => load_auth_data_from_csv_upload U
  | CsvRoleFiori => load_role_fiori_map_data_from_csv_upload U
  | CsvMasterDerived => load_master_derived_role_data_from_csv_upload U
  | CsvUserRole => load_user_role_map_data_from_csv_upload U
  | CsvUser => load_user_data_from_csv_upload U
  end.

(** A call of one of the six loaders. *)
Inductive LoadCall :=
| CallXml (xml_file : option parse_outcome)
| CallCsv (k : CsvKind) (csv_file : option bytes).

Definition run_load (U : UnicodeData) (F : Faults) (c : LoadCall)
  (client_name system_name : str) : M LoadResult :=
  match c with
  | CallXml xml_file => load_lice_data_from_xml_upload U F xml_file client_name system_name
  | CallCsv k csv_file => load_csv U k F csv_file client_name system_name
  end.

(** A run of loads, one after the other, failed or not. *)
Definition run_loads (U : UnicodeData)
  (calls : list (Faults * LoadCall * str * str)) (w : World) : World :=
  fold_left (fun w c => (run_load U c.1.1.1 c.1.1.2 c.1.2 c.2 w).2) calls w.

(** How the second [except] of a loader words its [DataLoaderError]. *)
Definition xml_failure (e : exn) : str :=
  match e with
  | ParseError _ => lit "XML ParseError: " ++ str_of_exn e
  | _ => lit "Failed loading XML data: " ++ str_of_exn e
  end.

Definition csv_failure (e : exn) : str :=
  lit "Failed loading CSV data: " ++ str_of_exn e.

(** The course every loader takes once a file is there, the model [m] is
    resolved and the input is parsed to [parsed]: provisioning, truncate,
    then insert and commit, each failure after provisioning ending in a
    rollback.  The loaders are shown below to run exactly like this. *)
Definition load_course (F : Faults) (m : Model) (parsed : list row + exn)
  (failure : exn -> str) (d : Db) : (LoadResult + exn) * Db :=
  match ensure_table_exists (create_fault F) m d with
  | (inr e, d1) => (inr e, d1)
  | (inl _, d1) =>
    match query_delete (delete_fault F) (tablename m) d1 with
    | (inr e, d2) =>
      (inr (DataLoaderError
              (lit "Failed to truncate table " ++ tablename m ++ lit ": "
               ++ str_of_exn e)),
       (rollback d2).2)
    | (inl _, d2) =>
      match parsed with
      | inr e => (inr (DataLoaderError (failure e)), (rollback d2).2)
      | inl objects_to_load =>
        let d3 := (add_all (tablename m) objects_to_load d2).2 in
        match commit (commit_fault F) d3 with
        | (inr e, d4) => (inr (DataLoaderError (failure e)), (rollback d4).2)
        | (inl _, d4) => (inl (success_result (tablename m) objects_to_load), d4)
        end
      end
    end
  end.

(** The records the reader yields after the first one. *)
Definition data_rows (csv_text : str) : list (list str) :=
  tail (csv_reader (splitlines csv_text)).1.

(** A column of a mapped object. *)
Definition column (r : row) (name : string) : option str :=
  snd <$> List.find (fun p => String.eqb p.1 name) r.

Definition agr_name_of (item : Element) : str :=
  findtext_or item (lit "AGR_NAME") [].

Definition object_of (item : Element) : str :=
  findtext_or item (lit "OBJECT") [].

(** Detail items have an OBJECT value; header items have none, but a role
    name and an AGR_CLASSIF element. *)
Definition is_detail (item : Element) : bool := truthy (object_of item).

Definition is_header (item : Element) : bool :=
  negb (is_detail item)
  && truthy (agr_name_of item)
  && bool_decide (is_Some (findtext item (lit "AGR_CLASSIF"))).

Definition is_header_of (role : str) (item : Element) : bool :=
  is_header item && str_eqb (agr_name_of item) role.

(** The items of a parsed upload, none when it is malformed. *)
Definition items_of (xml : parse_outcome) : list Element :=
  match xml with
  | Malformed _ => []
  | WellFormed root => findall_items root
  end.

(** A record comes from an item: same role, same object. *)
Definition record_of (o : row) (item : Element) : Prop :=
  column o "AGR_NAME" = Some (agr_name_of item)
  /\ column o "OBJECT" = Some (object_of item).

(** The cache is keyed by the table name of the class it holds. *)
Definition registry_ok (r : Registry) : Prop :=
  forall t m, dynamic_models_cache r !! t = Some m -> tablename m = t.

End Spec.

(** ** Sample inputs *)

Module Examples.
Import Py ET Database DynamicModels DataLoaderService Spec.

(** The bytes of an ASCII text in which [|] stands for a line feed. *)
Definition csv_bytes (s : string) : bytes :=
  List.map (fun b => match b with Byte.x7c => Byte.x0a | _ => b end)
    (list_byte_of_string s).

(** Three lines, the last data line one column short. *)
Definition short_row_csv : bytes := csv_bytes "derived,master|D1,M1|D2|".

(** A header line and nothing else. *)
Definition header_only_csv : bytes := csv_bytes "derived,master|".

(** The master/derived table of tenant (ACME, PRD). *)
Definition acme_table : str :=
  get_role_master_derived_data_tablename unicodedata (lit "ACME") (lit "PRD").

Definition old_row : row :=
  [("DERIVED_ROLE"%string, lit "OLD_D"); ("MASTER_ROLE"%string, lit "OLD_M")].

(** A world in which that table exists and holds one committed row. *)
Definition acme_world : World :=
  {| registry := empty_registry;
     db := {| tables := {[acme_table]};
              created := [];
              committed := {[acme_table := [old_row]]};
              session := {[acme_table := [old_row]]};
              pending := [] |} |}.

(** A fresh process and an empty database. *)
Definition empty_world : World :=
  {| registry := empty_registry;
     db := {| tables := ∅; created := []; committed := ∅; session := ∅;
              pending := [] |} |}.

Definition element (name : string) (value : string) : Element :=
  Elem (lit name) (Some (lit value)) [].

(** A header item for role R1 classified C, and a detail item of R1. *)
Definition header_R1 : Element :=
  Elem (lit "item") None [element "AGR_NAME" "R1"; element "AGR_CLASSIF" "C"].

Definition detail_R1 : Element :=
  Elem (lit "item") None [element "AGR_NAME" "R1"; element "OBJECT" "O1"].

(** A detail item of a role R2 that has no header. *)
Definition detail_R2 : Element :=
  Elem (lit "item") None [element "AGR_NAME" "R2"; element "OBJECT" "O2"].

(** A well-formed export with the given items at the expected path. *)
Definition document (items : list Element) : parse_outcome :=
  WellFormed
    (Elem (lit "{http://www.sap.com/abapxml}abap") None
       [Elem (lit "{http://www.sap.com/abapxml}values") None
          [Elem (lit "DOWNLOAD") None items]]).

End Examples.

(** ** app/core/logger.py *)

Module Logger.
Import Py.

Inductive Level := INFO | ERROR.

(** The two handler classes the module installs, with the level set on
    them; a file handler is known by the path it writes to. *)
Inductive Handler :=
| StreamHandler (level : Level)
| FileHandler (path : str) (level : Level).

(** The logger [logging.getLogger(__name__)]: its own handlers, its level,
    and whether a logger above it, reached through propagation, has
    handlers. *)
Record LoggerObj := {
  handlers : list Handler;
  level : option Level;
  ancestor_handlers : bool
}.

(** [logger.hasHandlers()]: handlers on the logger or on an ancestor. *)
Definition hasHandlers (l : LoggerObj) : bool :=
  match handlers l with
  | [] => ancestor_handlers l
  | _ => true
  end.

(** The truth value of an optional argument: [None] and the empty string
    are false. *)
Definition given (a : option str) : bool :=
  match a with
  | Some (_ :: _) => true
  | _ => false
  end.

Definition arg_text (a : option str) : str := default [] a.

(** [os.path.join("logs", filename)] on a POSIX system: an absolute second
    part replaces the first. *)
Definition os_path_join_logs (filename : str) : str :=
  match filename with
  | 47 :: _ => filename
  | _ => lit "logs" ++ [47] ++ filename
  end.

(** The three-way choice of the log file name; [timestamp] is what
    [datetime.datetime.now().strftime("%Y%m%d-%H%M%S")] returned. *)
Definition log_filename (client_name system_id : option str) (timestamp : str) : str :=
  if given client_name && given system_id
  then arg_text client_name ++ lit "-" ++ arg_text system_id ++ lit "-"
       ++ timestamp ++ lit ".log"
  else if given client_name
  then arg_text client_name ++ lit "-" ++ timestamp ++ lit ".log"
  else lit "app-" ++ timestamp ++ lit ".log".

(** [configure_logging(client_name, system_id)] on the state of the
    logger.  [fs_ok] says whether [os.makedirs] and the opening of the log
    file succeed; when they do not, the exception leaves the function after
    the stream handler was added, and the result is [None]. *)
Definition configure_logging (fs_ok : bool) (timestamp : str)
  (client_name system_id : option str) (l : LoggerObj)
  : option LoggerObj * LoggerObj :=
  let cleared := if hasHandlers l then [] else handlers l in
  let with_stream := cleared ++ [StreamHandler ERROR] in
  if fs_ok then
    let filename := log_filename client_name system_id timestamp in
    let l' := {| handlers := with_stream
                   ++ [FileHandler (os_path_join_logs filename) INFO];
                 level := Some INFO;
                 ancestor_handlers := ancestor_handlers l |} in
    (Some l', l')
  else
    (None, {| handlers := with_stream; level := Some INFO;
              ancestor_handlers := ancestor_handlers l |}).

End Logger.

(** ** app/models/dynamic_models.py: the column declarations *)

Module Schemas.
Import DynamicModels.

(** A [Column(...)] of a mixin: its name, whether NULL is allowed
    ([nullable], true unless declared otherwise or a primary key), and
    whether it is the primary key. *)
Record ColumnDecl := {
  col_name : string;
  nullable : bool;
  primary_key : bool
}.

(** The surrogate key every mixin declares first. *)
Definition id_column : ColumnDecl :=
  {| col_name := "id"; nullable := false; primary_key := true |}.

Definition col (name : string) : ColumnDecl :=
  {| col_name := name; nullable := true; primary_key := false |}.

Definition col_not_null (name : string) : ColumnDecl :=
  {| col_name := name; nullable := false; primary_key := false |}.

Definition columns (b : BaseClass) : list ColumnDecl :=
  match b with
  | BaseLiceData =>
    [id_column; col "AGR_NAME"; col_not_null "OBJECT"; col "TTEXT"; col "FIELD";
     col "LOW"; col "HIGH"; col "CLASSIF_S4"; col "AGR_TEXT"; col "AGR_CLASSIF";
     col "AGR_RATIO"; col "AGR_OBJECTS"; col "AGR_USERS"]
  | BaseAuthData =>
    [id_column; col_not_null "AGR_NAME"; col_not_null "OBJECT";
     col_not_null "AUTH_NAME"; col_not_null "FIELD_NAME"; col "AUTH_VALUE_LOW";
     col "AUTH_VALUE_HIGH"]
  | BaseFioriRoleData =>
    [id_column; col_not_null "ROLE"; col "ROLE_DESCRIPTION";
     col "TILE_TARGET_MAPPING_MATCHING_TEXT"; col "SEMANTIC_OBJECT"; col "ACTION";
     col "TITLE_SUBTITLE_INFORMATION"; col "APPLICATION_TYPE";
     col "APPLICATION_RESOURCES"; col "SAP_FIORI_ID";
     col "APPLICATION_COMPONENT_ID"; col "ODATA_SERVICE_NAME"; col "CATALOG_ID";
     col "CATALOG_TITLE"]
  | RoleMasterDerviData =>
    [id_column; col "DERIVED_ROLE"; col "MASTER_ROLE"; col "TEXT"]
  | UserData =>
    [id_column; col_not_null "USER"; col "FULL_NAME"; col "ID";
     col "CURRENT_CLASSIFICATION"; col "TARGET_CLASSIFICATION"; col "RATIO";
     col "REF_USER"; col "USER_GROUP"; col "LAST_LOGON"; col "COUNT"]
  | UserRoleData =>
    [id_column; col_not_null "ROLE"; col_not_null "USER_NAME"]
  end%string.

(** The names of all columns, and of those that must be given a value by
    whoever inserts a row. *)
Definition column_names (b : BaseClass) : list string :=
  List.map col_name (columns b).

Definition required_names (b : BaseClass) : list string :=
  List.map col_name
    (List.filter (fun c => negb (nullable c) && negb (primary_key c)) (columns b)).

End Schemas.

(** ** Further vocabulary *)

Module Derived.
Import Py ET Database DynamicModels DataLoaderService Spec Examples Logger.

(** The mixin behind each constructor. *)
Definition base_of (k : Kind) : BaseClass :=
  match k with
  | LiceData => BaseLiceData
  | AuthData => BaseAuthData
  | RoleFioriData => BaseFioriRoleData
  | MasterDerivedData => RoleMasterDerviData
  | UserRoleMap => UserRoleData
  | UserMaster => UserData
  end.

(** The last seven characters of the table names of a kind. *)
Definition kind_ending (k : Kind) : str :=
  match k with
  | LiceData => lit "SE_INFO"
  | AuthData => lit "BJ_DATA"
  | RoleFioriData => lit "RI_DATA"
  | MasterDerivedData => lit "VI_DATA"
  | UserRoleMap => lit "LE_DATA"
  | UserMaster => lit "ER_DATA"
  end.

(** Every cached class sits under its own table name, which is the table
    name of some tenant for the kind whose columns the class has. *)
Definition registry_sound (U : UnicodeData) (r : Registry) : Prop :=
  forall t m,
    dynamic_models_cache r !! t = Some m ->
    tablename m = t
    /\ exists k client system,
         t = get_tablename U k client system /\ base m = base_of k.

(** Each constructed class is the one cached under its table name, and no
    two constructed classes have the same table name. *)
Definition constructed_once (r : Registry) : Prop :=
  NoDup (List.map tablename (constructed r))
  /\ forall m, m ∈ constructed r ->
       dynamic_models_cache r !! tablename m = Some m.

(** What a call parses its file to; [None] when no file was given. *)
Definition parsed_of (c : LoadCall) : option (list row + exn) :=
  match c with
  | CallXml (Some xml) => Some (parse_lice_xml xml)
  | CallCsv k (Some content) => Some (parse_csv (field_map k) content)
  | _ => None
  end.

(** The constructor a call uses. *)
Definition kind_of_call (c : LoadCall) : Kind :=
  match c with
  | CallXml _ => LiceData
  | CallCsv k _ => kind_of k
  end.

(** A line cut at its commas; [cur] is the field being collected. *)
Fixpoint split_commas_from (cur line : str) : list str :=
  match line with
  | [] => [cur]
  | c :: line' =>
    if c =? 44 then cur :: split_commas_from [] line'
    else split_commas_from (cur ++ [c]) line'
  end.

(** The record of a line without quotes: nothing for an empty line, else
    its comma-separated fields. *)
Definition record_of_line (line : str) : list str :=
  match line with
  | [] => []
  | _ => split_commas_from [] line
  end.

(** Items the loop passes over: neither a detail row nor a header. *)
Definition is_ignored (item : Element) : bool :=
  negb (is_detail item) && negb (is_header item).

(** A character that is neither the quote character nor CR or LF. *)
Definition plain (c : N) : Prop := c <> 34 /\ is_crnl c = false.

(** Two data lines, the second with a column too many. *)
Definition two_rows_csv : bytes := csv_bytes "derived,master|D1,M1|D2,M2,extra|".

(** An item with neither OBJECT nor AGR_CLASSIF, and a detail item without
    a role name. *)
Definition stray_item : Element :=
  Elem (lit "item") None [element "AGR_TEXT" "stray"].

Definition nameless_detail : Element :=
  Elem (lit "item") None [element "OBJECT" "O9"].

(** A logger without handlers, below a root logger without handlers. *)
Definition fresh_logger : LoggerObj :=
  {| handlers := []; level := None; ancestor_handlers := false |}.

(** How the second [except] of the loader behind a call words its error. *)
Definition failure_of (c : LoadCall) : exn -> str :=
  match c with
  | CallXml _ => xml_failure
  | CallCsv _ _ => csv_failure
  end.

(** [d'] is [d] rolled back: every table shows its committed rows of [d],
    to later readers and to the session alike, and nothing is pending. *)
Definition rolled_back (d d' : Db) : Prop :=
  committed d' = committed d /\ session d' = committed d /\ pending d' = [].

(** Upper-casing leaves every character of [s] as it is. *)
Definition upper_fixed (U : UnicodeData) (s : str) : Prop :=
  Forall (fun d => toupper_full U d = [d]) s.

(** The values of one column down the rows of a table, in row order. *)
Definition column_values (name : string) (rows : list row) : list (option str) :=
  List.map (fun o => column o name) rows.

End Derived.

Import Logger Schemas Derived.
Import Py ET Database DynamicModels DataLoaderService Spec Examples.

(** * Properties *)

(** ** Characters *)

Lemma below_128 (P : N -> bool) :
  forallb P (List.map N.of_nat (seq 0 128)) = true ->
  forall c, c < 128 -> P c = true.
Proof.
  intros H c Hc.
  rewrite forallb_forall in H. apply H.
  apply in_map_iff. exists (N.to_nat c). split.
  - apply N2Nat.id.
  - apply in_seq. lia.
Qed.

Lemma extends_ascii_spec U c :
  extends_ascii U = true -> c < 128 ->
  isalnum U c = ascii_isalnum c /\ toupper_full U c = [ascii_toupper c].
Proof.
  intros HU Hc.
  pose proof (below_128 _ HU c Hc) as H.
  unfold agrees_on_ascii in H.
  apply andb_prop in H as [H1 H2].
  split.
  - by apply Bool.eqb_prop.
  - unfold str_eqb in H2. by apply bool_decide_eq_true in H2.
Qed.

Lemma is_word_ascii U c :
  extends_ascii U = true -> c < 128 ->
  is_word U c = is_word unicodedata c.
Proof.
  intros HU Hc. unfold is_word.
  destruct (extends_ascii_spec U c HU Hc) as [-> _].
  assert (HV : extends_ascii unicodedata = true) by (vm_compute; reflexivity).
  by destruct (extends_ascii_spec unicodedata c HV Hc) as [-> _].
Qed.

Lemma toupper_ascii U c :
  extends_ascii U = true -> c < 128 ->
  toupper_full U c = [ascii_toupper c].
Proof. intros HU Hc. by destruct (extends_ascii_spec U c HU Hc). Qed.

(** ** Normalization *)

Lemma unicodedata_extends_ascii : extends_ascii unicodedata = true.
Proof. vm_compute. reflexivity. Qed.

Lemma clean_client_name_cons U c s :
  extends_ascii U = true ->
  clean_client_name U (c :: s) = cleaned_char U c ++ clean_client_name U s.
Proof.
  intros HU.
  unfold clean_client_name, cleaned_char, upper. simpl.
  destruct (N.eqb_spec c 32) as [->|Hc].
  - assert (Hw : is_word U 95 = true).
    { unfold is_word. by rewrite orb_true_r. }
    rewrite Hw. simpl. f_equal.
    rewrite toupper_ascii by (done || lia). reflexivity.
  - destruct (is_word U c); reflexivity.
Qed.

Lemma clean_client_name_flat_map U s :
  extends_ascii U = true ->
  clean_client_name U s = List.flat_map (cleaned_char U) s.
Proof.
  intros HU. induction s as [|c s IH].
  - reflexivity.
  - rewrite clean_client_name_cons by done. simpl. by rewrite IH.
Qed.

Lemma cleaned_char_ascii U c :
  extends_ascii U = true -> c < 128 ->
  cleaned_char U c = cleaned_char unicodedata c.
Proof.
  intros HU Hc. unfold cleaned_char.
  rewrite (is_word_ascii U c HU Hc).
  rewrite (toupper_ascii U c HU Hc).
  rewrite (toupper_ascii unicodedata c unicodedata_extends_ascii Hc).
  reflexivity.
Qed.

(** On ASCII input every conforming database cleans alike. *)
Lemma clean_client_name_ascii U s :
  extends_ascii U = true -> Forall (fun c => c < 128) s ->
  clean_client_name U s = clean_client_name unicodedata s.
Proof.
  intros HU Hs.
  rewrite !clean_client_name_flat_map by (done || apply unicodedata_extends_ascii).
  induction Hs as [|c s Hc Hs IH]; simpl.
  - reflexivity.
  - by rewrite IH, (cleaned_char_ascii U c HU Hc).
Qed.

Lemma clean_system_name_ascii U s :
  extends_ascii U = true -> Forall (fun c => c < 128) s ->
  clean_system_name U s = clean_system_name unicodedata s.
Proof. apply clean_client_name_ascii. Qed.

Lemma cleaned_char_settled c :
  c < 128 -> forallb settled (cleaned_char unicodedata c) = true.
Proof.
  revert c.
  apply (below_128 (fun c => forallb settled (cleaned_char unicodedata c))).
  vm_compute. reflexivity.
Qed.

Lemma settled_ascii c : settled c = true -> c < 128.
Proof.
  unfold settled. rewrite !orb_true_iff, !andb_true_iff.
  rewrite !N.leb_le, N.eqb_eq. lia.
Qed.

Lemma clean_client_name_settles s :
  Forall (fun c => c < 128) s ->
  forallb settled (clean_client_name unicodedata s) = true.
Proof.
  intros Hs.
  rewrite clean_client_name_flat_map by apply unicodedata_extends_ascii.
  induction Hs as [|c s Hc Hs IH]; simpl.
  - reflexivity.
  - rewrite forallb_app, IH, (cleaned_char_settled c Hc). reflexivity.
Qed.

Lemma clean_system_name_eq U s : clean_system_name U s = clean_client_name U s.
Proof. reflexivity. Qed.

(** C6, counterexample.  A tab is whitespace, yet the cleaning does not turn
    it into an underscore: "A<TAB>B" becomes "AB", where the specified
    Normalize gives "A_B". *)
Lemma clean_client_name_strips_tab :
  isspace 9 = true
  /\ clean_client_name unicodedata [65; 9; 66] = [65; 66]
  /\ normalize_as_specified unicodedata [65; 9; 66] = [65; 95; 66]
  /\ clean_client_name unicodedata [65; 9; 66]
     <> normalize_as_specified unicodedata [65; 9; 66].
Proof. vm_compute. repeat split; discriminate. Qed.

(** C6, as amended.  For every input string the cleaning of client and
    system names works character by character: a space U+0020 becomes an
    underscore, any other character that is neither alphanumeric nor an
    underscore (tabs and other whitespace included) is dropped, and every
    character that remains is replaced by its upper-case mapping; on ASCII
    input the result is made of upper-case letters, digits and underscores
    only ([settled]).  Being a function of the string alone, it is deterministic. *)
Theorem clean_names_characterised U name :
  extends_ascii U = true ->
  clean_client_name U name = List.flat_map (cleaned_char U) name
  /\ clean_system_name U name = List.flat_map (cleaned_char U) name
  /\ (Forall (fun c => c < 128) name ->
      forallb settled (clean_client_name U name) = true).
Proof.
  intros HU. split; [|split].
  - by apply clean_client_name_flat_map.
  - rewrite clean_system_name_eq. by apply clean_client_name_flat_map.
  - intros Hn. rewrite clean_client_name_ascii by done.
    by apply clean_client_name_settles.
Qed.

Lemma clean_names_characterised_witness :
  extends_ascii unicodedata = true
  /\ clean_client_name unicodedata (lit "Acme Corp. (eu)")
     = List.flat_map (cleaned_char unicodedata) (lit "Acme Corp. (eu)").
Proof.
  split.
  - vm_compute. reflexivity.
  - apply (clean_names_characterised unicodedata (lit "Acme Corp. (eu)")).
    vm_compute. reflexivity.
Defined.

(** C8, counterexample.  U+01F0 (small j with caron) is a letter whose upper
    case is "J" followed by the combining caron U+030C; the first cleaning
    keeps the letter and upper-cases it, the second strips the combining
    mark. *)
Lemma clean_client_name_not_idempotent :
  clean_client_name unicodedata [0x1F0] = [0x4A; 0x30C]
  /\ clean_client_name unicodedata (clean_client_name unicodedata [0x1F0]) = [0x4A]
  /\ clean_client_name unicodedata (clean_client_name unicodedata [0x1F0])
     <> clean_client_name unicodedata [0x1F0].
Proof. vm_compute. repeat split; discriminate. Qed.

(** A map that sends every element to at most one element and leaves the
    list as a whole unchanged leaves every element unchanged. *)
Lemma flat_map_length_le {A} (g : A -> list A) (l : list A) :
  Forall (fun d => (length (g d) <= 1)%nat) l ->
  (length (List.flat_map g l) <= length l)%nat.
Proof.
  induction 1 as [|d l Hd Hl IH]; simpl.
  - lia.
  - rewrite length_app. lia.
Qed.

Lemma flat_map_fixed {A} (g : A -> list A) (l : list A) :
  Forall (fun d => (length (g d) <= 1)%nat) l ->
  List.flat_map g l = l ->
  Forall (fun d => g d = [d]) l.
Proof.
  induction 1 as [|d l Hd Hl IH]; simpl; intros Heq.
  - constructor.
  - pose proof (flat_map_length_le g l Hl) as Hlen.
    destruct (g d) as [|e [|e' rest]] eqn:Eg; simpl in *.
    + rewrite Heq in Hlen. simpl in Hlen. lia.
    + injection Heq as -> Heq. constructor; [exact Eg|by apply IH].
    + lia.
Qed.

Lemma space_not_word U : extends_ascii U = true -> is_word U 32 = false.
Proof.
  intros HU. rewrite (is_word_ascii U 32 HU) by lia. reflexivity.
Qed.

Lemma cleaned_char_upper_fixed U d :
  extends_ascii U = true ->
  toupper_full U d = [d] ->
  (cleaned_char U d = [d] <-> is_word U d = true)
  /\ (length (cleaned_char U d) <= 1)%nat.
Proof.
  intros HU Hd. unfold cleaned_char.
  destruct (N.eqb_spec d 32) as [->|Hne].
  - rewrite (space_not_word U HU). split; [|simpl; lia].
    split; [intros [=]|discriminate].
  - destruct (is_word U d); rewrite ?Hd; (split; [|simpl; lia]).
    + done.
    + split; [intros [=]|discriminate].
Qed.

(** Cleaning a text that upper-casing leaves alone keeps its word
    characters as they are and drops the others (a space it would turn into
    an underscore): the text stays as it is exactly when all its characters
    are word characters. *)
Lemma clean_fixed_iff U y :
  extends_ascii U = true ->
  upper_fixed U y ->
  clean_client_name U y = y <-> forallb (is_word U) y = true.
Proof.
  intros HU Hy. unfold upper_fixed in Hy.
  rewrite clean_client_name_flat_map by done. split.
  - intros Heq.
    apply flat_map_fixed in Heq.
    + apply forallb_forall. intros d Hin.
      rewrite List.Forall_forall in Heq, Hy.
      by apply (cleaned_char_upper_fixed U d HU (Hy d Hin)), Heq.
    + eapply Forall_impl; [exact Hy|].
      intros d Hd. by apply (cleaned_char_upper_fixed U d HU Hd).
  - intros Hw. induction Hy as [|d y Hd Hy IH]; simpl in *.
    + reflexivity.
    + apply andb_prop in Hw as [Hw1 Hw2].
      rewrite (proj2 (proj1 (cleaned_char_upper_fixed U d HU Hd)) Hw1).
      simpl. by rewrite IH.
Qed.

Lemma settled_word_fixed U d :
  extends_ascii U = true -> settled d = true ->
  is_word U d = true /\ toupper_full U d = [d].
Proof.
  intros HU Hd.
  pose proof (settled_ascii d Hd) as H128.
  rewrite (is_word_ascii U d HU H128), (toupper_ascii U d HU H128).
  pose proof (below_128
    (fun c => implb (settled c)
                (is_word unicodedata c && (ascii_toupper c =? c)))) as HP.
  specialize (HP ltac:(vm_compute; reflexivity) d H128).
  cbv beta in HP. rewrite Hd in HP. cbn [implb] in HP.
  apply andb_prop in HP as [H1 H2]. apply N.eqb_eq in H2.
  by rewrite H2.
Qed.

(** C8, as amended.  Take a name whose cleaned form upper-casing leaves
    alone, character by character (upper-casing what is upper-cased already
    changes nothing).  Cleaning the cleaned name again changes nothing
    exactly when the cleaned name is made of alphanumeric characters and
    underscores only.  What breaks idempotence is therefore a letter whose
    upper case carries a character that is not alphanumeric, as the
    combining caron of U+01F0; a letter such as U+00DF, whose upper case is
    "SS", does not.  Every ASCII name is covered: its cleaned form is left
    alone by upper-casing and has word characters only, so both cleaning
    functions are idempotent on it.  The system name is cleaned like the
    client name. *)
Theorem clean_names_idempotent_iff U x :
  extends_ascii U = true ->
  (upper_fixed U (clean_client_name U x) ->
     (clean_client_name U (clean_client_name U x) = clean_client_name U x
      <-> forallb (is_word U) (clean_client_name U x) = true))
  /\ (Forall (fun c => c < 128) x ->
        upper_fixed U (clean_client_name U x)
        /\ forallb (is_word U) (clean_client_name U x) = true
        /\ clean_client_name U (clean_client_name U x) = clean_client_name U x
        /\ clean_system_name U (clean_system_name U x) = clean_system_name U x)
  /\ (forall s, clean_system_name U s = clean_client_name U s).
Proof.
  intros HU. split; [|split].
  - intros Hy. by apply clean_fixed_iff.
  - intros Hx.
    assert (Hs : Forall (fun d => is_word U d = true /\ toupper_full U d = [d])
                   (clean_client_name U x)).
    { rewrite (clean_client_name_ascii U x) by done.
      pose proof (clean_client_name_settles x Hx) as Hs.
      rewrite forallb_forall in Hs. apply List.Forall_forall.
      intros d Hin. apply settled_word_fixed; [done|by apply Hs]. }
    assert (Hf : upper_fixed U (clean_client_name U x)).
    { eapply Forall_impl; [exact Hs|]. by intros d [_ ?]. }
    assert (Hw : forallb (is_word U) (clean_client_name U x) = true).
    { apply forallb_forall. rewrite List.Forall_forall in Hs.
      intros d Hin. by apply Hs. }
    assert (Hi : clean_client_name U (clean_client_name U x) = clean_client_name U x)
      by (by apply clean_fixed_iff).
    split; [exact Hf|]. split; [exact Hw|]. split; [exact Hi|].
    by rewrite !clean_system_name_eq.
  - reflexivity.
Qed.

Lemma clean_names_idempotent_iff_witness :
  let x := lit "stra" ++ [0xDF] ++ lit "e" in
  extends_ascii unicodedata = true
  /\ clean_client_name unicodedata x = lit "STRASSE"
  /\ upper_fixed unicodedata (clean_client_name unicodedata x)
  /\ clean_client_name unicodedata (clean_client_name unicodedata x)
     = clean_client_name unicodedata x.
Proof.
  cbv zeta.
  set (x := lit "stra" ++ [0xDF] ++ lit "e").
  assert (H1 : extends_ascii unicodedata = true) by (vm_compute; reflexivity).
  assert (H2 : upper_fixed unicodedata (clean_client_name unicodedata x)).
  { vm_compute. repeat constructor. }
  assert (H3 : forallb (is_word unicodedata) (clean_client_name unicodedata x) = true).
  { vm_compute. reflexivity. }
  split; [exact H1|]. split; [vm_compute; reflexivity|]. split; [exact H2|].
  exact (proj2 (proj1 (clean_names_idempotent_iff unicodedata x H1) H2) H3).
Defined.

(** ** The model cache and table provisioning *)

Lemma cached_or_new_again t m m' r :
  cached_or_new t m' (cached_or_new t m r).2 = cached_or_new t m r.
Proof.
  unfold cached_or_new.
  destruct (dynamic_models_cache r !! t) as [m0|] eqn:E; simpl.
  - by rewrite E.
  - by rewrite lookup_insert_eq.
Qed.

Lemma cached_or_new_cached t m r :
  dynamic_models_cache (cached_or_new t m r).2 !! t = Some (cached_or_new t m r).1.
Proof.
  unfold cached_or_new.
  destruct (dynamic_models_cache r !! t) as [m0|] eqn:E; simpl.
  - exact E.
  - by rewrite lookup_insert_eq.
Qed.

Lemma create_model_unfold U k client system r :
  exists new_class,
    tablename new_class = get_tablename U k client system
    /\ create_model U k client system r
       = cached_or_new (get_tablename U k client system) new_class r.
Proof. destruct k; (eexists; split; [|reflexivity]; reflexivity). Qed.

Lemma create_model_again U k client system client' system' r :
  get_tablename U k client' system' = get_tablename U k client system ->
  create_model U k client' system' (create_model U k client system r).2
  = create_model U k client system r.
Proof.
  intros Ht.
  destruct (create_model_unfold U k client system r) as (m & _ & ->).
  destruct (create_model_unfold U k client' system'
              (cached_or_new (get_tablename U k client system) m r).2)
    as (m' & _ & ->).
  rewrite Ht. apply cached_or_new_again.
Qed.

Lemma ensure_table_exists_skips f m d :
  has_table d (tablename m) = true -> ensure_table_exists f m d = (inl tt, d).
Proof. intros H. unfold ensure_table_exists. by rewrite H. Qed.

Lemma ensure_table_exists_provides f m d d' :
  ensure_table_exists f m d = (inl tt, d') -> has_table d' (tablename m) = true.
Proof.
  unfold ensure_table_exists, create_table.
  destruct (has_table d (tablename m)) eqn:E; simpl.
  - intros [= <-]. exact E.
  - destruct f; [discriminate|].
    intros [= <-].
    unfold has_table. simpl. apply bool_decide_eq_true. set_solver.
Qed.

Lemma ensure_table_exists_log_ok f m d :
  creation_log_ok d -> creation_log_ok (ensure_table_exists f m d).2.
Proof.
  intros [Hnd Hin]. unfold ensure_table_exists, create_table.
  destruct (has_table d (tablename m)) eqn:E; simpl; [by split|].
  destruct f; simpl; [by split|].
  split; simpl.
  - apply NoDup_app. split; [done|]. split.
    + intros t Ht Ht'. apply list_elem_of_singleton in Ht'. subst t.
      apply Hin in Ht. unfold has_table in E.
      apply bool_decide_eq_false in E. contradiction.
    + apply NoDup_singleton.
  - intros t Ht. apply elem_of_app in Ht as [Ht|Ht].
    + apply Hin in Ht. set_solver.
    + apply list_elem_of_singleton in Ht. set_solver.
Qed.

Lemma ensure_each_log_ok calls d :
  creation_log_ok d -> creation_log_ok (ensure_each calls d).
Proof.
  unfold ensure_each. revert d.
  induction calls as [|c calls IH]; intros d Hd; simpl.
  - exact Hd.
  - apply IH. by apply ensure_table_exists_log_ok.
Qed.

(** ** Table names *)

Lemma get_tablename_ascii U k client system :
  extends_ascii U = true ->
  Forall (fun c => c < 128) client -> Forall (fun c => c < 128) system ->
  get_tablename U k client system = get_tablename unicodedata k client system.
Proof.
  intros HU Hc Hs.
  destruct k; simpl;
    unfold get_lice_data_tablename, get_auth_data_tablename,
      get_role_fiori_data_tablename, get_role_master_derived_data_tablename,
      get_user_data_tablename, get_user_role_data_tablename;
    cbv zeta;
    by rewrite (clean_client_name_ascii U client), (clean_system_name_ascii U system).
Qed.

Lemma shared_tablename U k :
  extends_ascii U = true ->
  get_tablename U k (lit "A") (lit "B C") = get_tablename U k (lit "A B") (lit "C").
Proof.
  intros HU.
  rewrite !(get_tablename_ascii U) by (done || (vm_compute; repeat constructor)).
  destruct k; vm_compute; reflexivity.
Qed.

Lemma cached_or_new_fresh t new r :
  dynamic_models_cache r !! t = None ->
  cached_or_new t new r
  = (new, {| dynamic_models_cache := <[t := new]> (dynamic_models_cache r);
             constructed := constructed r ++ [new] |}).
Proof. intros H. unfold cached_or_new. by rewrite H. Qed.

(** ** The course of a load *)

Lemma load_csv_upload_course create_model fm F content client system w :
  load_csv_upload create_model fm F (Some content) client system w
  = let '(m, r1) := create_model client system (registry w) in
    let '(res, d) := load_course F m (parse_csv fm content) csv_failure (db w) in
    (res, {| registry := r1; db := d |}).
Proof.
  unfold load_csv_upload, load_course.
  cbv [bind try_except truncate on_db on_registry lift ret raise].
  destruct (create_model client system (registry w)) as [m r1].
  cbn [registry db].
  destruct (ensure_table_exists (create_fault F) m (db w)) as [[u|e1] d1]; [|reflexivity].
  cbn [registry db].
  destruct (query_delete (delete_fault F) (tablename m) d1) as [[n|e2] d2]; [|reflexivity].
  destruct (parse_csv fm content) as [objs|e3]; [|reflexivity].
  cbn [add_all registry db snd].
  match goal with |- context [commit ?f ?d] => destruct (commit f d) as [[u'|e4] d4] end;
    reflexivity.
Qed.

Lemma load_lice_course U F xml client system w :
  load_lice_data_from_xml_upload U F (Some xml) client system w
  = let '(m, r1) := create_lice_data_model U client system (registry w) in
    let '(res, d) := load_course F m (parse_lice_xml xml) xml_failure (db w) in
    (res, {| registry := r1; db := d |}).
Proof.
  unfold load_lice_data_from_xml_upload, load_course.
  cbv [bind try_except truncate on_db on_registry lift ret raise].
  destruct (create_lice_data_model U client system (registry w)) as [m r1].
  cbn [registry db].
  destruct (ensure_table_exists (create_fault F) m (db w)) as [[u|e1] d1]; [|reflexivity].
  cbn [registry db].
  destruct (query_delete (delete_fault F) (tablename m) d1) as [[n|e2] d2]; [|reflexivity].
  destruct (parse_lice_xml xml) as [objs|e3].
  - cbn [add_all registry db snd].
    match goal with |- context [commit ?f ?d] => destruct (commit f d) as [[u'|e4] d4] end.
    + reflexivity.
    + unfold xml_failure. destruct e4; reflexivity.
  - unfold xml_failure. destruct e3; reflexivity.
Qed.

Lemma load_csv_course U k F content client system w :
  load_csv U k F (Some content) client system w
  = let '(m, r1) := create_model U (kind_of k) client system (registry w) in
    let '(res, d) := load_course F m (parse_csv (field_map k) content) csv_failure (db w) in
    (res, {| registry := r1; db := d |}).
Proof. destruct k; apply load_csv_upload_course. Qed.

(** *** Database operations: what they leave alone *)

Lemma ensure_table_exists_inl f m d u d' :
  ensure_table_exists f m d = (inl u, d') ->
  committed d' = committed d /\ session d' = session d /\ pending d' = pending d.
Proof.
  unfold ensure_table_exists, create_table.
  repeat case_match; intros; simplify_eq; done.
Qed.

Lemma ensure_table_exists_inr f m d e d' :
  ensure_table_exists f m d = (inr e, d') ->
  d' = d /\ exists msg, e = DBAPIError msg /\ f = Some msg.
Proof.
  unfold ensure_table_exists, create_table.
  repeat case_match; intros; simplify_eq; eauto.
Qed.

Lemma query_delete_inl f t d n d' :
  query_delete f t d = (inl n, d') ->
  f = None /\ committed d' = committed d /\ pending d' = pending d
  /\ session d' = <[t := []]> (session d).
Proof. unfold query_delete. case_match; intros; simplify_eq; done. Qed.

Lemma query_delete_inr f t d e d' :
  query_delete f t d = (inr e, d') ->
  d' = d /\ exists msg, e = DBAPIError msg /\ f = Some msg.
Proof. unfold query_delete. case_match; intros; simplify_eq; eauto. Qed.

Lemma commit_inr f d e d' :
  commit f d = (inr e, d') -> d' = d /\ exists msg, e = DBAPIError msg /\ f = Some msg.
Proof. unfold commit. case_match; intros; simplify_eq; eauto. Qed.

Lemma rows_of_insert (t : str) (x : list row) (s : gmap str (list row)) :
  rows_of (<[t := x]> s) t = x.
Proof. unfold rows_of. by rewrite lookup_insert_eq. Qed.

Lemma flush_same_table (t : str) (objs : list row) : forall rows0 (s : gmap str (list row)),
  flush (<[t := rows0]> s) (List.map (fun o => (t, o)) objs)
  = <[t := rows0 ++ objs]> s.
Proof.
  unfold flush.
  induction objs as [|o objs IH]; intros rows0 s.
  - simpl. by rewrite app_nil_r.
  - cbn [List.map fold_left fst snd].
    rewrite rows_of_insert.
    rewrite insert_insert_eq, IH. by rewrite <- app_assoc.
Qed.

(** What a course that succeeds has done. *)
Lemma load_course_inl F m parsed failure d res d' :
  load_course F m parsed failure d = (inl res, d') ->
  pending d = [] ->
  exists objs,
    parsed = inl objs
    /\ res = success_result (tablename m) objs
    /\ has_table d' (tablename m) = true
    /\ delete_fault F = None /\ commit_fault F = None
    /\ committed d' = <[tablename m := objs]> (session d)
    /\ session d' = committed d'
    /\ pending d' = []
    /\ tables d' = tables (ensure_table_exists (create_fault F) m d).2
    /\ created d' = created (ensure_table_exists (create_fault F) m d).2.
Proof.
  unfold load_course. intros H Hp.
  destruct (ensure_table_exists (create_fault F) m d) as [[u|e1] d1] eqn:E1;
    [|discriminate].
  destruct u.
  pose proof (ensure_table_exists_provides _ _ _ _ E1) as Ht.
  apply ensure_table_exists_inl in E1 as (Hc1 & Hs1 & Hp1).
  unfold query_delete in H.
  destruct (delete_fault F) as [msg|]; [discriminate|].
  destruct parsed as [objs|e3]; [|discriminate].
  unfold commit in H. cbv zeta in H.
  destruct (commit_fault F) as [msg|]; [discriminate|].
  injection H as <- <-.
  exists objs. cbn [add_all snd tables created committed session pending].
  rewrite Hp1, Hp, Hs1. cbn [app].
  rewrite flush_same_table. cbn [app].
  repeat split; try reflexivity. exact Ht.
Qed.

Lemma run_load_course U F call client system w :
  run_load U F call client system w
  = match parsed_of call with
    | None =>
      (inl {| message :=
                match call with
                | CallXml _ => lit "No XML file provided, skipping load."
                | CallCsv _ _ => lit "No CSV file provided, skipping load."
                end;
              table_name := None; records_loaded := 0 |}, w)
    | Some parsed =>
      let '(m, r1) := create_model U (kind_of_call call) client system (registry w) in
      let '(res, d) :=
        load_course F m parsed
          (match call with CallXml _ => xml_failure | CallCsv _ _ => csv_failure end)
          (db w) in
      (res, {| registry := r1; db := d |})
    end.
Proof.
  destruct call as [[xml|]|k [content|]]; unfold run_load, parsed_of, kind_of_call.
  - apply load_lice_course.
  - reflexivity.
  - apply load_csv_course.
  - destruct k; reflexivity.
Qed.

(** A failed course leaves the committed rows alone, and either it ends in
    a rollback with a [DataLoaderError], or it failed while provisioning the
    table and did not touch the database at all. *)
Lemma load_course_failure F m parsed failure d e d' :
  load_course F m parsed failure d = (inr e, d') ->
  committed d' = committed d
  /\ (((exists msg, e = DataLoaderError msg)
       /\ session d' = committed d /\ pending d' = [])
      \/ ((exists msg, e = DBAPIError msg /\ create_fault F = Some msg)
          /\ d' = d)).
Proof.
  unfold load_course.
  destruct (ensure_table_exists (create_fault F) m d) as [[u|e1] d1] eqn:E1.
  2:{ intros [= <- <-].
      apply ensure_table_exists_inr in E1 as [-> (msg & -> & ?)]. eauto 10. }
  apply ensure_table_exists_inl in E1 as (Hc1 & Hs1 & Hp1).
  destruct (query_delete (delete_fault F) (tablename m) d1) as [[n|e2] d2] eqn:E2.
  2:{ intros [= <- <-]. apply query_delete_inr in E2 as [-> _].
      cbn [rollback snd committed session pending]. rewrite Hc1. eauto 10. }
  apply query_delete_inl in E2 as (_ & Hc2 & Hp2 & Hs2).
  destruct parsed as [objs|e3].
  2:{ intros [= <- <-].
      cbn [rollback snd committed session pending]. rewrite Hc2, Hc1. eauto 10. }
  cbv zeta.
  match goal with |- context [commit ?f ?d] => destruct (commit f d) as [[u'|e4] d4] eqn:E4 end.
  - intros [=].
  - intros [= <- <-]. apply commit_inr in E4 as [-> _].
    cbn [add_all rollback snd committed session pending].
    rewrite Hc2, Hc1. eauto 10.
Qed.

(** Once the table is there the transaction begins. *)
Lemma ensure_table_exists_begins f m d :
  has_table d (tablename m) = true \/ f = None ->
  exists d1,
    ensure_table_exists f m d = (inl tt, d1)
    /\ committed d1 = committed d.
Proof.
  intros H. unfold ensure_table_exists, create_table.
  destruct (has_table d (tablename m)) eqn:E; cbn [negb].
  - by exists d.
  - destruct H as [H| ->]; [discriminate|]. eauto.
Qed.

(** Each of the three failures after provisioning ends the course in a
    [DataLoaderError], after a rollback. *)
Lemma load_course_raises F m parsed failure d :
  has_table d (tablename m) = true \/ create_fault F = None ->
  (forall msg,
     delete_fault F = Some msg ->
     exists d',
       load_course F m parsed failure d
       = (inr (DataLoaderError
                 (lit "Failed to truncate table " ++ tablename m ++ lit ": " ++ msg)), d')
       /\ rolled_back d d')
  /\ (forall e,
        delete_fault F = None -> parsed = inr e ->
        exists d',
          load_course F m parsed failure d = (inr (DataLoaderError (failure e)), d')
          /\ rolled_back d d')
  /\ (forall objs msg,
        delete_fault F = None -> parsed = inl objs -> commit_fault F = Some msg ->
        exists d',
          load_course F m parsed failure d
          = (inr (DataLoaderError (failure (DBAPIError msg))), d')
          /\ rolled_back d d').
Proof.
  intros Hb.
  destruct (ensure_table_exists_begins _ _ _ Hb) as (d1 & E1 & Hc1).
  unfold load_course. rewrite E1. unfold query_delete, rollback, rolled_back.
  split; [|split].
  - intros msg ->. eexists. split; [reflexivity|].
    cbn [snd committed session pending]. by rewrite Hc1.
  - intros e -> ->. eexists. split; [reflexivity|].
    cbn [snd committed session pending]. by rewrite Hc1.
  - intros objs msg -> -> Hk. cbv zeta. unfold commit. rewrite Hk.
    eexists. split; [reflexivity|].
    cbn [add_all snd committed session pending]. by rewrite Hc1.
Qed.

Lemma run_load_some U F call client system w parsed :
  parsed_of call = Some parsed ->
  run_load U F call client system w
  = let '(res, d) :=
      load_course F (create_model U (kind_of_call call) client system (registry w)).1
        parsed (failure_of call) (db w) in
    (res, {| registry := (create_model U (kind_of_call call) client system (registry w)).2;
             db := d |}).
Proof.
  intros H. rewrite run_load_course, H.
  by destruct (create_model U (kind_of_call call) client system (registry w)).
Qed.

(** C1.  Whichever of the six loaders is called with a file, once the
    table of its model is there (it exists, or its creation does not fail)
    every failure makes the call raise [DataLoaderError] with the database
    rolled back: a failing truncate, with the truncate's message; a parse
    failure, which comes after the truncate was done in the session, with
    the loader's wording of the parse error; a failing commit of the parsed
    objects, with the loader's wording of the database error.  Rolled back
    means that every table shows the rows that were committed before the
    call, to later readers and to the session, so the truncate is undone,
    and that nothing stays pending.  Conversely, whenever a call fails the
    committed rows of every table are what they were, and the failure is
    either such a [DataLoaderError] after a rollback, or the failure of the
    table creation before the transaction starts, re-raised as it is with
    the database untouched. *)
Theorem load_failure_rolls_back U F call client system w :
  let m := (create_model U (kind_of_call call) client system (registry w)).1 in
  (forall parsed,
     parsed_of call = Some parsed ->
     has_table (db w) (tablename m) = true \/ create_fault F = None ->
     (forall msg,
        delete_fault F = Some msg ->
        exists w',
          run_load U F call client system w
          = (inr (DataLoaderError
                    (lit "Failed to truncate table " ++ tablename m ++ lit ": " ++ msg)),
             w')
          /\ rolled_back (db w) (db w'))
     /\ (forall e,
           delete_fault F = None -> parsed = inr e ->
           exists w',
             run_load U F call client system w
             = (inr (DataLoaderError (failure_of call e)), w')
             /\ rolled_back (db w) (db w'))
     /\ (forall objs msg,
           delete_fault F = None -> parsed = inl objs -> commit_fault F = Some msg ->
           exists w',
             run_load U F call client system w
             = (inr (DataLoaderError (failure_of call (DBAPIError msg))), w')
             /\ rolled_back (db w) (db w')))
  /\ (forall e w',
        run_load U F call client system w = (inr e, w') ->
        committed (db w') = committed (db w)
        /\ (((exists msg, e = DataLoaderError msg)
             /\ session (db w') = committed (db w) /\ pending (db w') = [])
            \/ ((exists msg, e = DBAPIError msg /\ create_fault F = Some msg)
                /\ db w' = db w))).
Proof.
  cbv zeta. split.
  - intros parsed Hfile Hb.
    rewrite (run_load_some U F call client system w parsed Hfile).
    destruct (load_course_raises F _ parsed (failure_of call) (db w) Hb)
      as (Ht & Hp & Hk).
    split; [|split].
    + intros msg Hd. destruct (Ht msg Hd) as (d' & -> & Hr).
      eexists. split; [reflexivity|exact Hr].
    + intros e Hd He. destruct (Hp e Hd He) as (d' & -> & Hr).
      eexists. split; [reflexivity|exact Hr].
    + intros objs msg Hd Ho Hc. destruct (Hk objs msg Hd Ho Hc) as (d' & -> & Hr).
      eexists. split; [reflexivity|exact Hr].
  - intros e w'.
    destruct (parsed_of call) as [parsed|] eqn:Hfile.
    + rewrite (run_load_some U F call client system w parsed Hfile).
      destruct (load_course F _ parsed (failure_of call) (db w)) as [res d] eqn:E.
      intros [= -> <-]. cbn [db]. by apply load_course_failure in E.
    + rewrite run_load_course, Hfile. intros [=].
Qed.

Lemma load_failure_rolls_back_witness :
  let short := CallCsv CsvMasterDerived (Some short_row_csv) in
  let full := CallCsv CsvMasterDerived (Some two_rows_csv) in
  let locked := {| create_fault := None; delete_fault := Some (lit "table is locked");
                   commit_fault := None |} in
  let disk_full := {| create_fault := None; delete_fault := None;
                      commit_fault := Some (lit "disk full") |} in
  has_table (db acme_world) acme_table = true
  /\ (exists w',
        run_load unicodedata locked full (lit "ACME") (lit "PRD") acme_world
        = (inr (DataLoaderError
                  (lit "Failed to truncate table Z_FUE_ACME_PRD_ROLE_MASTER_DERVI_DATA: table is locked")),
           w')
        /\ rolled_back (db acme_world) (db w'))
  /\ (exists w',
        run_load unicodedata no_faults short (lit "ACME") (lit "PRD") acme_world
        = (inr (DataLoaderError
                  (lit "Failed loading CSV data: Error processing row 3: Not enough columns.")),
           w')
        /\ rolled_back (db acme_world) (db w')
        /\ rows_of (session (db w')) acme_table = [old_row])
  /\ (exists w',
        run_load unicodedata disk_full full (lit "ACME") (lit "PRD") acme_world
        = (inr (DataLoaderError (lit "Failed loading CSV data: disk full")), w')
        /\ rolled_back (db acme_world) (db w')).
Proof.
  cbv zeta.
  set (short := CallCsv CsvMasterDerived (Some short_row_csv)).
  set (full := CallCsv CsvMasterDerived (Some two_rows_csv)).
  set (locked := {| create_fault := None; delete_fault := Some (lit "table is locked");
                    commit_fault := None |}).
  set (disk_full := {| create_fault := None; delete_fault := None;
                       commit_fault := Some (lit "disk full") |}).
  assert (Ht : has_table (db acme_world) acme_table = true) by (vm_compute; reflexivity).
  assert (Hshort : parse_csv master_derived_field_map short_row_csv
                   = inr (not_enough_columns 1)) by (vm_compute; reflexivity).
  assert (Hfull : exists objs, parse_csv master_derived_field_map two_rows_csv = inl objs).
  { eexists. vm_compute. reflexivity. }
  destruct Hfull as [objs Hfull].
  split; [exact Ht|]. split; [|split].
  - exact (proj1
             (proj1 (load_failure_rolls_back unicodedata locked full
                       (lit "ACME") (lit "PRD") acme_world)
                (parse_csv master_derived_field_map two_rows_csv)
                eq_refl (or_introl Ht))
             (lit "table is locked") eq_refl).
  - destruct (proj1 (proj2
                (proj1 (load_failure_rolls_back unicodedata no_faults short
                          (lit "ACME") (lit "PRD") acme_world)
                   (parse_csv master_derived_field_map short_row_csv)
                   eq_refl (or_introl Ht)))
                (not_enough_columns 1) eq_refl Hshort)
      as (w' & Hrun & Hrb).
    exists w'. split; [exact Hrun|]. split; [exact Hrb|].
    destruct Hrb as (_ & Hs & _). rewrite Hs. vm_compute. reflexivity.
  - exact (proj2 (proj2
             (proj1 (load_failure_rolls_back unicodedata disk_full full
                       (lit "ACME") (lit "PRD") acme_world)
                (parse_csv master_derived_field_map two_rows_csv)
                eq_refl (or_introl Ht)))
             objs (lit "disk full") eq_refl Hfull eq_refl).
Defined.

(** ** Tenants that share a table name *)

(** Two loads in a row through one class. *)
Lemma load_twice_same_class F1 F2 m objs1 objs2 failure1 failure2 d res1 d1 res2 d2 :
  pending d = [] ->
  load_course F1 m (inl objs1) failure1 d = (inl res1, d1) ->
  load_course F2 m (inl objs2) failure2 d1 = (inl res2, d2) ->
  table_name res1 = Some (tablename m)
  /\ table_name res2 = Some (tablename m)
  /\ rows_of (committed d1) (tablename m) = objs1
  /\ rows_of (committed d2) (tablename m) = objs2
  /\ tables d2 = tables d1.
Proof.
  intros Hp H1 H2.
  destruct (load_course_inl _ _ _ _ _ _ _ H1 Hp)
    as (o1 & [= <-] & -> & Ht1 & _ & _ & Hc1 & _ & Hp1 & _).
  destruct (load_course_inl _ _ _ _ _ _ _ H2 Hp1)
    as (o2 & [= <-] & -> & _ & _ & _ & Hc2 & _ & _ & Htab & _).
  rewrite (ensure_table_exists_skips _ _ _ Ht1) in Htab.
  rewrite Hc1, Hc2, !rows_of_insert.
  by repeat split.
Qed.

(** C10.  The table name does not determine the tenant: the distinct pairs
    ("A B", "C") and ("A", "B C") get the same table name [t] for every
    record kind.  After the first tenant's [create_*] call the cache holds
    its class under [t]; the second tenant's call returns that very entry
    and stores and constructs nothing, so that from a cache without [t] the
    two calls together leave one new entry, under [t], and one constructed
    class.  Once [ensure_table_exists] has run for the first tenant the
    table of that class exists, and the call for the second tenant creates
    nothing.  Both tenants' loads of the kind go to that one table: after a
    successful load for the first tenant and then one for the second, both
    results name it, no table was added by the second, and its committed
    rows are the second tenant's objects, the first tenant's being gone. *)
Theorem tablename_not_injective U k r :
  extends_ascii U = true ->
  let t := get_tablename U k (lit "A B") (lit "C") in
  let first := create_model U k (lit "A B") (lit "C") r in
  let second := create_model U k (lit "A") (lit "B C") first.2 in
  (lit "A B", lit "C") <> (lit "A", lit "B C")
  /\ get_tablename U k (lit "A") (lit "B C") = t
  /\ dynamic_models_cache first.2 !! t = Some first.1
  /\ second.1 = first.1 /\ second.2 = first.2
  /\ (dynamic_models_cache r !! t = None ->
        tablename first.1 = t
        /\ dynamic_models_cache second.2 = <[t := first.1]> (dynamic_models_cache r)
        /\ constructed second.2 = constructed r ++ [first.1])
  /\ (forall f1 f2 d d1,
        ensure_table_exists f1 first.1 d = (inl tt, d1) ->
        has_table d1 (tablename first.1) = true
        /\ ensure_table_exists f2 second.1 d1 = (inl tt, d1))
  /\ (forall F1 F2 call1 call2 objs1 objs2 w res1 w1 res2 w2,
        kind_of_call call1 = k -> kind_of_call call2 = k ->
        parsed_of call1 = Some (inl objs1) ->
        parsed_of call2 = Some (inl objs2) ->
        registry w = r -> pending (db w) = [] ->
        run_load U F1 call1 (lit "A B") (lit "C") w = (inl res1, w1) ->
        run_load U F2 call2 (lit "A") (lit "B C") w1 = (inl res2, w2) ->
        table_name res1 = Some (tablename first.1)
        /\ table_name res2 = Some (tablename first.1)
        /\ rows_of (committed (db w1)) (tablename first.1) = objs1
        /\ rows_of (committed (db w2)) (tablename first.1) = objs2
        /\ tables (db w2) = tables (db w1)
        /\ registry w2 = registry w1).
Proof.
  intros HU. cbv zeta.
  pose proof (shared_tablename U k HU) as Ht.
  pose proof (create_model_again U k _ _ _ _ r Ht) as Hagain.
  split; [vm_compute; discriminate|].
  split; [exact Ht|].
  split.
  { destruct (create_model_unfold U k (lit "A B") (lit "C") r) as (m & _ & ->).
    apply cached_or_new_cached. }
  rewrite Hagain.
  split; [reflexivity|]. split; [reflexivity|].
  split.
  { intros Hfresh.
    destruct (create_model_unfold U k (lit "A B") (lit "C") r) as (m & Hm & ->).
    rewrite (cached_or_new_fresh _ _ _ Hfresh).
    cbn [fst snd dynamic_models_cache constructed].
    by repeat split. }
  split.
  { intros f1 f2 d d1 H.
    pose proof (ensure_table_exists_provides _ _ _ _ H) as Hex.
    split; [exact Hex|]. by apply ensure_table_exists_skips. }
  intros F1 F2 call1 call2 objs1 objs2 w res1 w1 res2 w2 Hk1 Hk2 Hf1 Hf2 Hr Hp.
  rewrite (run_load_some U F1 call1 _ _ w _ Hf1), Hk1, Hr.
  destruct (load_course F1 _ (inl objs1) (failure_of call1) (db w)) as [x1 d1] eqn:E1.
  intros [= -> <-].
  rewrite (run_load_some U F2 call2 _ _ _ _ Hf2), Hk2. cbn [registry db].
  rewrite Hagain.
  destruct (load_course F2 _ (inl objs2) (failure_of call2) d1) as [x2 d2] eqn:E2.
  intros [= -> <-]. cbn [registry db].
  destruct (load_twice_same_class _ _ _ _ _ _ _ _ _ _ _ _ Hp E1 E2)
    as (? & ? & ? & ? & ?).
  by repeat split.
Qed.

Lemma tablename_not_injective_witness :
  let call1 := CallCsv CsvMasterDerived (Some two_rows_csv) in
  let call2 := CallCsv CsvMasterDerived (Some header_only_csv) in
  let t := lit "Z_FUE_A_B_C_ROLE_MASTER_DERVI_DATA" in
  let r1 := run_load unicodedata no_faults call1 (lit "A B") (lit "C") empty_world in
  let r2 := run_load unicodedata no_faults call2 (lit "A") (lit "B C") r1.2 in
  extends_ascii unicodedata = true
  /\ get_tablename unicodedata MasterDerivedData (lit "A B") (lit "C") = t
  /\ get_tablename unicodedata MasterDerivedData (lit "A") (lit "B C") = t
  /\ length (constructed (registry r2.2)) = 1%nat
  /\ length (rows_of (committed (db r1.2)) t) = 2%nat
  /\ rows_of (committed (db r2.2)) t = [].
Proof.
  cbv zeta.
  set (call1 := CallCsv CsvMasterDerived (Some two_rows_csv)).
  set (call2 := CallCsv CsvMasterDerived (Some header_only_csv)).
  set (r1 := run_load unicodedata no_faults call1 (lit "A B") (lit "C") empty_world).
  set (r2 := run_load unicodedata no_faults call2 (lit "A") (lit "B C") r1.2).
  assert (HU : extends_ascii unicodedata = true) by (vm_compute; reflexivity).
  assert (Hobjs : exists objs1, parsed_of call1 = Some (inl objs1)).
  { eexists. vm_compute. reflexivity. }
  destruct Hobjs as [objs1 Hf1].
  assert (Hf2 : parsed_of call2 = Some (inl [])) by (vm_compute; reflexivity).
  assert (H1 : exists res1, r1 = (inl res1, r1.2)).
  { eexists. vm_compute. reflexivity. }
  destruct H1 as [res1 H1].
  assert (H2 : exists res2, r2 = (inl res2, r2.2)).
  { eexists. vm_compute. reflexivity. }
  destruct H2 as [res2 H2].
  pose proof (tablename_not_injective unicodedata MasterDerivedData empty_registry HU)
    as (_ & Ht & _ & _ & _ & _ & _ & Hloads).
  specialize (Hloads no_faults no_faults call1 call2 objs1 [] empty_world
                res1 r1.2 res2 r2.2 eq_refl eq_refl Hf1 Hf2 eq_refl eq_refl H1 H2).
  destruct Hloads as (_ & _ & _ & Hrows2 & _).
  split; [exact HU|].
  split; [vm_compute; reflexivity|].
  split; [vm_compute; reflexivity|].
  split; [vm_compute; reflexivity|].
  split; [vm_compute; reflexivity|].
  exact Hrows2.
Defined.

(** ** Provisioning over whole loads *)

Lemma load_course_schema F m parsed failure d :
  tables (load_course F m parsed failure d).2
  = tables (ensure_table_exists (create_fault F) m d).2
  /\ created (load_course F m parsed failure d).2
     = created (ensure_table_exists (create_fault F) m d).2.
Proof.
  unfold load_course.
  destruct (ensure_table_exists (create_fault F) m d) as [[u|e1] d1]; [|done].
  unfold query_delete.
  destruct (delete_fault F); [done|].
  destruct parsed as [objs|e3]; [|done].
  unfold commit. cbv zeta.
  destruct (commit_fault F); done.
Qed.

Lemma load_course_log_ok F m parsed failure d :
  creation_log_ok d -> creation_log_ok (load_course F m parsed failure d).2.
Proof.
  intros H.
  pose proof (ensure_table_exists_log_ok (create_fault F) m d H) as [H1 H2].
  destruct (load_course_schema F m parsed failure d) as [Ht Hc].
  split.
  - by rewrite Hc.
  - intros t. rewrite Hc, Ht. apply H2.
Qed.

Lemma run_load_log_ok U F call client system w :
  creation_log_ok (db w) ->
  creation_log_ok (db (run_load U F call client system w).2).
Proof.
  intros H. destruct call as [[xml|]|k [content|]]; unfold run_load.
  - rewrite load_lice_course.
    destruct (create_lice_data_model U client system (registry w)) as [m r1].
    pose proof (load_course_log_ok F m (parse_lice_xml xml) xml_failure (db w) H) as H'.
    by destruct (load_course F m (parse_lice_xml xml) xml_failure (db w)).
  - exact H.
  - rewrite load_csv_course.
    destruct (create_model U (kind_of k) client system (registry w)) as [m r1].
    pose proof (load_course_log_ok F m (parse_csv (field_map k) content)
                  csv_failure (db w) H) as H'.
    by destruct (load_course F m (parse_csv (field_map k) content) csv_failure (db w)).
  - destruct k; exact H.
Qed.

Lemma run_loads_log_ok U calls : forall w,
  creation_log_ok (db w) -> creation_log_ok (db (run_loads U calls w)).
Proof.
  unfold run_loads.
  induction calls as [|c calls IH]; intros w H; simpl.
  - exact H.
  - apply IH. by apply run_load_log_ok.
Qed.


(** C7.  Each of the six model constructors memoizes: a second call with
    the same client and system returns the very class the first call
    returned, hence the same table name, and leaves the cache and the list
    of constructed classes as the first call left them; the class is cached
    under its table name.  [ensure_table_exists] does nothing when the table
    exists, so no table name is created twice, neither over a run of
    [ensure_table_exists] calls nor over a run of loads. *)
Theorem create_model_memoizes U k client system r :
  let first := create_model U k client system r in
  let second := create_model U k client system first.2 in
  second.1 = first.1
  /\ tablename second.1 = tablename first.1
  /\ second.2 = first.2
  /\ dynamic_models_cache first.2 !! get_tablename U k client system = Some first.1
  /\ (forall f m d,
        has_table d (tablename m) = true ->
        ensure_table_exists f m d = (inl tt, d))
  /\ (forall calls d, creation_log_ok d -> creation_log_ok (ensure_each calls d))
  /\ (forall calls w,
        creation_log_ok (db w) -> creation_log_ok (db (run_loads U calls w))).
Proof.
  cbv zeta.
  rewrite (create_model_again U k client system client system r eq_refl).
  repeat split.
  - destruct (create_model_unfold U k client system r) as (m & _ & ->).
    apply cached_or_new_cached.
  - apply ensure_table_exists_skips.
  - by apply ensure_each_log_ok.
  - by apply ensure_each_log_ok.
  - by apply run_loads_log_ok.
  - by apply run_loads_log_ok.
Qed.

Lemma create_model_memoizes_witness :
  let d := {| tables := ∅; created := []; committed := ∅; session := ∅; pending := [] |} in
  let m := (create_model unicodedata AuthData (lit "Acme") (lit "PRD") empty_registry).1 in
  creation_log_ok d
  /\ creation_log_ok (ensure_each [(None, m); (None, m)] d).
Proof.
  cbv zeta.
  assert (H : creation_log_ok
    {| tables := ∅; created := []; committed := ∅; session := ∅; pending := [] |}).
  { split; simpl.
    - apply NoDup_nil_2.
    - intros t Ht. by apply not_elem_of_nil in Ht. }
  split; [exact H|].
  exact (proj1 (proj2 (proj2 (proj2 (proj2 (proj2
    (create_model_memoizes unicodedata AuthData (lit "Acme") (lit "PRD") empty_registry))))))
    _ _ H).
Defined.


(** ** Text decoding *)

Lemma parse_add_char_error r c e :
  parse_add_char r c = inr e -> exists msg, e = csv_Error msg.
Proof. unfold parse_add_char. case_match; intros; simplify_eq; eauto. Qed.

Lemma add_char_then_error st r c e :
  add_char_then st r c = inr e -> exists msg, e = csv_Error msg.
Proof.
  unfold add_char_then.
  destruct (parse_add_char r c) eqn:E; intros; simplify_eq.
  by apply parse_add_char_error in E.
Qed.

Lemma parse_process_char_error r c e :
  parse_process_char r c = inr e -> exists msg, e = csv_Error msg.
Proof.
  unfold parse_process_char.
  repeat case_match; intros; simplify_eq; eauto;
    (by eapply add_char_then_error) || (by eapply parse_add_char_error).
Qed.

Lemma parse_chars_error line : forall r e,
  parse_chars r line = inr e -> exists msg, e = csv_Error msg.
Proof.
  induction line as [|c line IH]; intros r e; simpl.
  - discriminate.
  - destruct (parse_process_char r (Some c)) eqn:E.
    + apply IH.
    + intros [= <-]. by apply parse_process_char_error in E.
Qed.

Lemma parse_line_error r line e :
  parse_line r line = inr e -> exists msg, e = csv_Error msg.
Proof.
  unfold parse_line. destruct (parse_chars r line) eqn:E.
  - apply parse_process_char_error.
  - intros [= <-]. by apply parse_chars_error in E.
Qed.

Lemma reader_from_error lines : forall r records e,
  reader_from r lines = (records, Some e) -> exists msg, e = csv_Error msg.
Proof.
  induction lines as [|line lines IH]; intros r records e; simpl.
  - repeat case_match; discriminate.
  - destruct (parse_line r line) as [r'|e'] eqn:E.
    + destruct (state r');
        try apply IH.
      destruct (reader_from parse_reset lines) as [rows fin] eqn:E'.
      intros [= <- ->]. by apply IH in E'.
    + intros [= <- <-]. by apply parse_line_error in E.
Qed.

Lemma obj_data_error fm : forall csv_row e,
  obj_data fm csv_row = inr e -> e = IndexError.
Proof.
  induction fm as [|[f i] fm IH]; intros csv_row e; simpl.
  - discriminate.
  - destruct (csv_row !! i); [|by intros [= <-]].
    destruct (obj_data fm csv_row) eqn:E; [discriminate|].
    intros [= <-]. by apply IH in E.
Qed.

Lemma rows_loop_error fm data : forall i acc e,
  rows_loop fm i data acc = inr e -> exists msg, e = DataLoaderError msg.
Proof.
  induction data as [|csv_row data IH]; intros i acc e; simpl.
  - discriminate.
  - destruct (obj_data fm csv_row) as [d|e'] eqn:E.
    + apply IH.
    + destruct e'; intros [= <-]; unfold not_enough_columns, row_error; eauto.
Qed.

(** C9.  Whatever the bytes, decoding the CSV content succeeds: the text is
    the UTF-8 reading when that is valid and the Latin-1 reading otherwise;
    Latin-1 accepts every byte sequence, so the cp1252 attempt is never
    reached, and no parse of a CSV file ends in a [UnicodeDecodeError]. *)
Theorem csv_decoding_never_fails (content : bytes) :
  (exists latin, decode_latin_1 content = Some latin)
  /\ (exists csv_text,
        decode_csv_content content = inl csv_text
        /\ (decode_utf_8_sig content = Some csv_text
            \/ (decode_utf_8_sig content = None
                /\ decode_latin_1 content = Some csv_text)))
  /\ (forall fm msg, parse_csv fm content <> inr (UnicodeDecodeError msg)).
Proof.
  split; [by eexists|].
  assert (Hd : exists csv_text,
    decode_csv_content content = inl csv_text
    /\ (decode_utf_8_sig content = Some csv_text
        \/ (decode_utf_8_sig content = None
            /\ decode_latin_1 content = Some csv_text))).
  { unfold decode_csv_content, decode_latin_1.
    destruct (decode_utf_8_sig content) as [t|]; eauto. }
  split; [exact Hd|].
  intros fm msg. unfold parse_csv.
  destruct Hd as (csv_text & -> & _).
  destruct (csv_reader (splitlines csv_text)) as [records fin] eqn:E.
  unfold csv_reader in E.
  destruct records as [|header data].
  - destruct fin as [e|]; [|discriminate]. simpl.
    apply reader_from_error in E as [msg' ->]. discriminate.
  - destruct (rows_loop fm 0 data []) as [objs|e] eqn:E'.
    + destruct fin as [e|]; [|discriminate].
      apply reader_from_error in E as [msg' ->]. discriminate.
    + apply rows_loop_error in E' as [msg' ->]. discriminate.
Qed.

(** ** The CSV loaders *)

Lemma field_map_indices k :
  List.map snd (field_map k) = seq 0 (required_columns k).
Proof. destruct k; reflexivity. Qed.


Lemma obj_data_enough fm : forall csv_row : list str,
  (forall i, In i (List.map snd fm) -> (i < length csv_row)%nat) ->
  exists d, obj_data fm csv_row = inl d.
Proof.
  induction fm as [|[f i0] fm IH]; intros csv_row H; simpl in *.
  - eauto.
  - destruct (lookup_lt_is_Some_2 csv_row i0) as [v ->]; [apply H; auto|].
    destruct (IH csv_row) as [d ->]; eauto.
Qed.


Lemma obj_data_full_row k (csv_row : list str) :
  (required_columns k <= length csv_row)%nat ->
  exists d, obj_data (field_map k) csv_row = inl d.
Proof.
  intros H. apply obj_data_enough. intros i Hi.
  rewrite field_map_indices in Hi. apply in_seq in Hi. lia.
Qed.



Lemma load_course_parse_error F m e0 failure d :
  exists e d',
    load_course F m (inr e0) failure d = (inr e, d')
    /\ (create_fault F = None -> delete_fault F = None ->
        e = DataLoaderError (failure e0)).
Proof.
  unfold load_course.
  destruct (ensure_table_exists (create_fault F) m d) as [[u|e1] d1] eqn:E1.
  - destruct (query_delete (delete_fault F) (tablename m) d1) as [[n|e2] d2] eqn:E2.
    + eauto.
    + eexists _, _. split; [reflexivity|]. intros _ Hd.
      apply query_delete_inr in E2 as (_ & msg & _ & Hf). congruence.
  - eexists _, _. split; [reflexivity|]. intros Hc _.
    apply ensure_table_exists_inr in E1 as (_ & msg & _ & Hf). congruence.
Qed.



Lemma flush_nil snapshot : flush snapshot [] = snapshot.
Proof. reflexivity. Qed.

Lemma create_model_tablename U k client system r :
  registry_ok r ->
  tablename (create_model U k client system r).1 = get_tablename U k client system.
Proof.
  intros Hr.
  destruct (create_model_unfold U k client system r) as (m & Hm & ->).
  unfold cached_or_new.
  destruct (dynamic_models_cache r !! get_tablename U k client system) as [m0|] eqn:E.
  - by apply Hr.
  - exact Hm.
Qed.

Lemma create_model_registry_ok U k client system r :
  registry_ok r -> registry_ok (create_model U k client system r).2.
Proof.
  intros Hr.
  destruct (create_model_unfold U k client system r) as (m & Hm & ->).
  unfold cached_or_new.
  destruct (dynamic_models_cache r !! get_tablename U k client system) as [m0|] eqn:E.
  - exact Hr.
  - intros t m'. simpl. rewrite lookup_insert.
    case_decide; intros; simplify_eq; [done|]. by apply Hr.
Qed.

(** A course without faults on parsed objects: the table exists, its old
    rows are gone, and what is committed is the truncated session with the
    pending objects flushed into it. *)
Lemma load_course_success F m objs failure d :
  create_fault F = None -> delete_fault F = None -> commit_fault F = None ->
  exists d',
    load_course F m (inl objs) failure d
    = (inl (success_result (tablename m) objs), d')
    /\ tablename m ∈ tables d'
    /\ committed d'
       = flush (<[tablename m := []]> (session d))
           (pending d ++ List.map (fun o => (tablename m, o)) objs).
Proof.
  intros Hc Hd Hk. unfold load_course.
  destruct (ensure_table_exists (create_fault F) m d) as [[u|e1] d1] eqn:E1.
  2:{ apply ensure_table_exists_inr in E1 as (_ & msg & _ & ?). congruence. }
  destruct u.
  pose proof (ensure_table_exists_provides _ _ _ _ E1) as Ht.
  apply ensure_table_exists_inl in E1 as (Hc1 & Hs1 & Hp1).
  rewrite Hd, Hk. unfold query_delete, add_all, commit.
  cbn [snd tables created committed session pending].
  eexists. split; [reflexivity|].
  cbn [tables committed]. split.
  - unfold has_table in Ht. by apply bool_decide_eq_true in Ht.
  - by rewrite Hs1, Hp1.
Qed.

(** C3, counterexample.  An empty file has no data row, yet loading it is
    an error: there is no record for [next(csv_reader)] to skip, the
    [StopIteration] is caught like any exception, and after the rollback
    the table still holds its old row. *)
Lemma empty_csv_file_is_an_error :
  let r := load_csv unicodedata CsvMasterDerived no_faults (Some [])
             (lit "ACME") (lit "PRD") acme_world in
  decode_csv_content [] = inl []
  /\ csv_reader (splitlines []) = ([], None)
  /\ data_rows [] = []
  /\ r.1 = inr (DataLoaderError (lit "Failed loading CSV data: "))
  /\ rows_of (committed (db r.2)) acme_table = [old_row].
Proof. vm_compute. repeat split; reflexivity. Qed.

(** C3, as amended.  For every CSV input that consists of a header record
    and no data row, a load whose database operations do not fail, started
    on a session with nothing pending, is not an error: the header record
    is skipped whatever it contains, the result reports zero records for
    the tenant's table, the table exists, and the truncate is committed, so
    the table is empty afterwards. *)
Theorem csv_header_only_empties_table U k F content client system w
    csv_text header :
  create_fault F = None -> delete_fault F = None -> commit_fault F = None ->
  registry_ok (registry w) ->
  pending (db w) = [] ->
  decode_csv_content content = inl csv_text ->
  csv_reader (splitlines csv_text) = ([header], None) ->
  let table := get_tablename U (kind_of k) client system in
  exists res w',
    load_csv U k F (Some content) client system w = (inl res, w')
    /\ records_loaded res = 0%nat
    /\ table_name res = Some table
    /\ message res = lit "Successfully loaded 0 records into " ++ table
    /\ table ∈ tables (db w')
    /\ rows_of (committed (db w')) table = [].
Proof.
  intros Hc Hd Hk Hreg Hpend Hdec Hread table.
  assert (Hparse : parse_csv (field_map k) content = inl []).
  { unfold parse_csv. by rewrite Hdec, Hread. }
  rewrite load_csv_course, Hparse.
  pose proof (create_model_tablename U (kind_of k) client system _ Hreg) as Ht.
  destruct (create_model U (kind_of k) client system (registry w)) as [m r1].
  simpl in Ht.
  destruct (load_course_success F m [] csv_failure (db w) Hc Hd Hk)
    as (d' & -> & Hin & Hcom).
  eexists _, _. split; [reflexivity|].
  cbn [success_result records_loaded table_name message db length].
  rewrite Ht in *. fold table in Hin, Hcom |- *.
  repeat split; try done.
  rewrite Hcom, Hpend. simpl. unfold rows_of. by rewrite lookup_insert_eq.
Qed.

Lemma csv_header_only_empties_table_witness :
  let csv_text := List.map Byte.to_N header_only_csv in
  let header := [lit "derived"; lit "master"] in
  registry_ok (registry acme_world)
  /\ decode_csv_content header_only_csv = inl csv_text
  /\ csv_reader (splitlines csv_text) = ([header], None)
  /\ exists res w',
       load_csv unicodedata CsvMasterDerived no_faults (Some header_only_csv)
         (lit "ACME") (lit "PRD") acme_world = (inl res, w')
       /\ records_loaded res = 0%nat
       /\ table_name res = Some acme_table
       /\ message res = lit "Successfully loaded 0 records into " ++ acme_table
       /\ acme_table ∈ tables (db w')
       /\ rows_of (committed (db w')) acme_table = [].
Proof.
  cbv zeta.
  assert (H0 : registry_ok (registry acme_world)).
  { intros t m H. simpl in H. by rewrite lookup_empty in H. }
  assert (H1 : decode_csv_content header_only_csv
               = inl (List.map Byte.to_N header_only_csv)).
  { vm_compute. reflexivity. }
  assert (H2 : csv_reader (splitlines (List.map Byte.to_N header_only_csv))
               = ([[lit "derived"; lit "master"]], None)).
  { vm_compute. reflexivity. }
  split; [exact H0|]. split; [exact H1|]. split; [exact H2|].
  exact (csv_header_only_empties_table unicodedata CsvMasterDerived no_faults
           header_only_csv (lit "ACME") (lit "PRD") acme_world _ _
           eq_refl eq_refl eq_refl H0 eq_refl H1 H2).
Defined.

(** ** The XML loader *)

Lemma item_step_eq ri acc item :
  item_step (ri, acc) item
  = if is_detail item
    then (ri, acc ++ [lice_data_obj (default ∅ (ri !! agr_name_of item))
                        (agr_name_of item) (object_of item) item])
    else if is_header item
         then (<[agr_name_of item := role_header_info item]> ri, acc)
         else (ri, acc).
Proof.
  unfold item_step, is_header, is_detail, agr_name_of, object_of.
  destruct (truthy (findtext_or item (lit "OBJECT") [])); reflexivity.
Qed.

(** The objects found so far only grow at the end. *)
Lemma fold_item_step_acc items : forall ri acc,
  fold_left item_step items (ri, acc)
  = ((fold_left item_step items (ri, [])).1,
     acc ++ (fold_left item_step items (ri, [])).2).
Proof.
  induction items as [|item items IH]; intros ri acc.
  - simpl. by rewrite app_nil_r.
  - cbn [fold_left]. rewrite !item_step_eq.
    destruct (is_detail item).
    + rewrite (IH ri (acc ++ _)), (IH ri ([] ++ _)). cbn [fst snd].
      by rewrite <- app_assoc.
    + destruct (is_header item); apply IH.
Qed.

Lemma fold_item_step_app items1 items2 ri :
  fold_left item_step (items1 ++ items2) (ri, [])
  = let st := fold_left item_step items1 (ri, []) in
    ((fold_left item_step items2 (st.1, [])).1,
     st.2 ++ (fold_left item_step items2 (st.1, [])).2).
Proof.
  rewrite fold_left_app. cbv zeta.
  destruct (fold_left item_step items1 (ri, [])) as [ri1 acc1].
  apply fold_item_step_acc.
Qed.

(** Items that are no header of [role] leave its entry alone. *)
Lemma fold_item_step_lookup role items : forall ri,
  Forall (fun it => is_header_of role it = false) items ->
  (fold_left item_step items (ri, [])).1 !! role = ri !! role.
Proof.
  induction items as [|item items IH]; intros ri H.
  - reflexivity.
  - apply Forall_cons in H as [Hi H].
    cbn [fold_left]. rewrite item_step_eq.
    destruct (is_detail item).
    + rewrite fold_item_step_acc. cbn [fst]. by apply IH.
    + unfold is_header_of in Hi.
      destruct (is_header item); [|by apply IH].
      simpl in Hi. unfold str_eqb in Hi. apply bool_decide_eq_false in Hi.
      rewrite IH by done. by rewrite lookup_insert_ne.
Qed.

(** Every record comes from a detail item, in order; headers give none. *)
Lemma fold_item_step_records items : forall ri,
  Forall2 record_of (fold_left item_step items (ri, [])).2
    (List.filter is_detail items).
Proof.
  induction items as [|item items IH]; intros ri.
  - constructor.
  - cbn [fold_left List.filter]. rewrite item_step_eq.
    destruct (is_detail item).
    + rewrite fold_item_step_acc. cbn [snd app].
      constructor; [|apply IH]. split; reflexivity.
    + destruct (is_header item); apply IH.
Qed.

Lemma filter_is_detail_nil items :
  List.filter is_detail items = [] <-> Forall (fun it => is_detail it = false) items.
Proof.
  induction items as [|item items IH]; simpl.
  - split; [constructor|reflexivity].
  - destruct (is_detail item) eqn:E.
    + split; [discriminate|]. intros H. apply Forall_cons in H as [H _]. congruence.
    + rewrite IH. split; [by constructor|]. intros H. by apply Forall_cons in H as [_ H].
Qed.

Lemma items_loop_nil items :
  (items_loop items).2 = [] <-> Forall (fun it => is_detail it = false) items.
Proof.
  rewrite <- filter_is_detail_nil. unfold items_loop.
  pose proof (fold_item_step_records items ∅) as H.
  split; intros E; rewrite E in H; inversion H; reflexivity.
Qed.

Lemma detail_or_none items :
  Forall (fun it => is_detail it = false) items
  \/ Exists (fun it => is_detail it = true) items.
Proof.
  induction items as [|item items [IH|IH]].
  - left. constructor.
  - destruct (is_detail item) eqn:E.
    + right. by apply Exists_cons_hd.
    + left. by constructor.
  - right. by apply Exists_cons_tl.
Qed.

(** When the parsing of the upload fails, and with which exception. *)
Lemma parse_lice_xml_cases xml :
  match parse_lice_xml xml with
  | inl objs =>
    Exists (fun it => is_detail it = true) (items_of xml)
    /\ objs = (items_loop (items_of xml)).2
  | inr e =>
    (exists msg, xml = Malformed msg /\ e = ParseError msg)
    \/ ((exists root, xml = WellFormed root) /\ items_of xml = []
        /\ e = DataLoaderError (lit "No <item> elements found in XML."))
    \/ ((exists root, xml = WellFormed root) /\ items_of xml <> []
        /\ Forall (fun it => is_detail it = false) (items_of xml)
        /\ e = DataLoaderError (lit "No valid object data found."))
  end.
Proof.
  destruct xml as [msg|root]; simpl.
  - left. eauto.
  - destruct (findall_items root) as [|item items] eqn:E.
    + right. left. eauto.
    + destruct ((items_loop (item :: items)).2) as [|o objs] eqn:E'.
      * right. right. split; [eauto|]. split; [discriminate|].
        split; [|reflexivity]. by apply items_loop_nil.
      * split; [|reflexivity].
        destruct (detail_or_none (item :: items)) as [Hall|Hex]; [|exact Hex].
        apply items_loop_nil in Hall. congruence.
Qed.

(** Without database faults the XML load fails exactly as its parsing
    does. *)
Lemma load_lice_without_faults U F xml client system w :
  create_fault F = None -> delete_fault F = None -> commit_fault F = None ->
  (load_lice_data_from_xml_upload U F (Some xml) client system w).1
  = match parse_lice_xml xml with
    | inl objs =>
      inl (success_result
             (tablename (create_lice_data_model U client system (registry w)).1) objs)
    | inr e => inr (DataLoaderError (xml_failure e))
    end.
Proof.
  intros Hc Hd Hk. rewrite load_lice_course.
  destruct (create_lice_data_model U client system (registry w)) as [m r1].
  destruct (parse_lice_xml xml) as [objs|e0].
  - destruct (load_course_success F m objs xml_failure (db w) Hc Hd Hk)
      as (d' & -> & _). reflexivity.
  - destruct (load_course_parse_error F m e0 xml_failure (db w))
      as (e & d' & -> & He). cbn [fst]. by rewrite He.
Qed.

(** C4, counterexample.  A well-formed export whose only item is a header
    row: an item element is found, and still the load fails. *)
Lemma xml_headers_only_is_an_error :
  let xml := document [header_R1] in
  let r := load_lice_data_from_xml_upload unicodedata no_faults (Some xml)
             (lit "ACME") (lit "PRD") empty_world in
  items_of xml = [header_R1]
  /\ is_header header_R1 = true
  /\ r.1 = inr (DataLoaderError
                  (lit "Failed loading XML data: No valid object data found.")).
Proof. vm_compute. repeat split; reflexivity. Qed.

(** C4, as amended.  With a database that does not fail, the XML load fails
    exactly when the document is malformed, or no item element is found, or
    none of the items found is a detail row (has an OBJECT value); each of
    the three has its own message.  As soon as one item is a detail row the
    load succeeds: the records are those of the detail rows, in order, and
    header rows, with or without detail rows of their role, give no record
    and no error. *)
Theorem xml_load_fails_iff U F xml client system w :
  create_fault F = None -> delete_fault F = None -> commit_fault F = None ->
  let r := load_lice_data_from_xml_upload U F (Some xml) client system w in
  ((exists e, r.1 = inr e)
   <-> ((exists msg, xml = Malformed msg)
        \/ items_of xml = []
        \/ Forall (fun it => is_detail it = false) (items_of xml)))
  /\ (forall msg, xml = Malformed msg ->
        r.1 = inr (DataLoaderError (lit "XML ParseError: " ++ msg)))
  /\ ((exists root, xml = WellFormed root) -> items_of xml = [] ->
        r.1 = inr (DataLoaderError
                     (lit "Failed loading XML data: No <item> elements found in XML.")))
  /\ (items_of xml <> [] ->
      Forall (fun it => is_detail it = false) (items_of xml) ->
        r.1 = inr (DataLoaderError
                     (lit "Failed loading XML data: No valid object data found.")))
  /\ (Exists (fun it => is_detail it = true) (items_of xml) ->
      exists res objs,
        r.1 = inl res
        /\ parse_lice_xml xml = inl objs
        /\ records_loaded res = length objs
        /\ Forall2 record_of objs (List.filter is_detail (items_of xml))).
Proof.
  intros Hc Hd Hk r. subst r.
  rewrite (load_lice_without_faults U F xml client system w Hc Hd Hk).
  pose proof (parse_lice_xml_cases xml) as Hcases.
  assert (Hnot : Exists (fun it => is_detail it = true) (items_of xml) ->
                 Forall (fun it => is_detail it = false) (items_of xml) -> False).
  { intros Hex Hall. apply Exists_exists in Hex as (it & Hin & Hit).
    rewrite Forall_forall in Hall. apply Hall in Hin. congruence. }
  destruct (parse_lice_xml xml) as [objs|e0].
  - destruct Hcases as [Hex ->].
    split; [|split; [|split; [|split]]].
    + split; [intros [e [=]]|].
      intros [[msg ->]|[Hnil|Hall]].
      * by apply Exists_nil in Hex.
      * rewrite Hnil in Hex. by apply Exists_nil in Hex.
      * by destruct (Hnot Hex Hall).
    + intros msg ->. by apply Exists_nil in Hex.
    + intros _ Hnil. rewrite Hnil in Hex. by apply Exists_nil in Hex.
    + intros _ Hall. by destruct (Hnot Hex Hall).
    + intros _. eexists _, _. split; [reflexivity|]. split; [reflexivity|].
      split; [reflexivity|]. apply fold_item_step_records.
  - split; [|split; [|split; [|split]]].
    + split; [|eauto].
      intros _.
      destruct Hcases as [(msg & -> & _)|[(_ & Hnil & _)|(_ & _ & Hall & _)]]; eauto.
    + intros msg ->.
      destruct Hcases as [(msg' & [= <-] & ->)|[([root [=]] & _)|([root [=]] & _)]].
      reflexivity.
    + intros [root ->] Hnil.
      destruct Hcases as [(msg' & [=] & _)|[(_ & _ & ->)|(_ & Hne & _)]];
        [reflexivity|contradiction].
    + intros Hne Hall.
      destruct Hcases as [(msg' & -> & _)|[(_ & Hnil & _)|(_ & _ & _ & ->)]];
        [by destruct Hne|contradiction|reflexivity].
    + intros Hex.
      destruct Hcases as [(msg & -> & _)|[(_ & Hnil & _)|(_ & _ & Hall & _)]].
      * by apply Exists_nil in Hex.
      * rewrite Hnil in Hex. by apply Exists_nil in Hex.
      * by destruct (Hnot Hex Hall).
Qed.

Lemma xml_load_fails_iff_witness :
  let xml := document [header_R1; detail_R1] in
  let r := load_lice_data_from_xml_upload unicodedata no_faults (Some xml)
             (lit "ACME") (lit "PRD") empty_world in
  Exists (fun it => is_detail it = true) (items_of xml)
  /\ exists res objs,
       r.1 = inl res
       /\ parse_lice_xml xml = inl objs
       /\ records_loaded res = length objs
       /\ Forall2 record_of objs (List.filter is_detail (items_of xml)).
Proof.
  cbv zeta.
  assert (H : Exists (fun it => is_detail it = true)
                (items_of (document [header_R1; detail_R1]))).
  { apply Exists_cons_tl, Exists_cons_hd. vm_compute. reflexivity. }
  split; [exact H|].
  exact (proj2 (proj2 (proj2 (proj2
    (xml_load_fails_iff unicodedata no_faults (document [header_R1; detail_R1])
       (lit "ACME") (lit "PRD") empty_world eq_refl eq_refl eq_refl)))) H).
Defined.

Lemma role_header_info_lookup item :
  role_header_info item !! "AGR_TEXT"%string = Some (findtext_or item (lit "AGR_TEXT") [])
  /\ role_header_info item !! "AGR_CLASSIF"%string
     = Some (findtext_or item (lit "AGR_CLASSIF") [])
  /\ role_header_info item !! "AGR_RATIO"%string
     = Some (findtext_or item (lit "AGR_RATIO") [])
  /\ role_header_info item !! "AGR_OBJECTS"%string
     = Some (findtext_or item (lit "AGR_OBJECTS") (lit "0"))
  /\ role_header_info item !! "AGR_USERS"%string
     = Some (findtext_or item (lit "AGR_USERS") (lit "0")).
Proof.
  unfold role_header_info.
  repeat split; repeat (rewrite lookup_insert_ne by discriminate);
    apply lookup_insert_eq.
Qed.

Lemma truthy_nonempty (s : str) : s <> [] -> truthy s = true.
Proof. by destruct s. Qed.

(** The record of a detail item, given what [roles_info] holds for its
    role when the loop reaches it. *)
Lemma items_loop_detail pre detail post :
  is_detail detail = true ->
  (items_loop (pre ++ detail :: post)).2
  = (items_loop pre).2
    ++ lice_data_obj (default ∅ ((items_loop pre).1 !! agr_name_of detail))
         (agr_name_of detail) (object_of detail) detail
    :: (fold_left item_step post ((items_loop pre).1, [])).2.
Proof.
  intros Hd. unfold items_loop.
  rewrite fold_item_step_app. cbv zeta. cbn [snd fold_left].
  rewrite item_step_eq, Hd. f_equal.
  rewrite (fold_item_step_acc post). reflexivity.
Qed.

(** C5.  First part: take any item sequence in which a header item of a
    role (no OBJECT value, an AGR_CLASSIF element with value [classif]) is
    followed, with no other header of that role in between, by a detail
    item of the same role.  The record made for the detail item carries
    the header's aggregates: its AGR_CLASSIF is [classif], and AGR_TEXT,
    AGR_RATIO, AGR_OBJECTS and AGR_USERS are the header's, with "0" for an
    absent count and the empty string for an absent text.  This is the
    scenario R1, "C", O1 of the specification, for any role, value and
    object.  Second part: a detail item whose role has had no header so far
    gets its own fields, with the same defaults when they are absent. *)
Theorem xml_aggregates_propagate :
  (forall role classif obj pre header mid detail post,
     role <> [] -> obj <> [] ->
     agr_name_of header = role -> object_of header = [] ->
     findtext header (lit "AGR_CLASSIF") = Some classif ->
     agr_name_of detail = role -> object_of detail = obj ->
     Forall (fun it => is_header_of role it = false) mid ->
     exists rec after,
       (items_loop (pre ++ header :: mid ++ detail :: post)).2
       = (items_loop (pre ++ header :: mid)).2 ++ rec :: after
       /\ record_of rec detail
       /\ column rec "AGR_CLASSIF" = Some classif
       /\ column rec "AGR_TEXT" = Some (default [] (findtext header (lit "AGR_TEXT")))
       /\ column rec "AGR_RATIO" = Some (default [] (findtext header (lit "AGR_RATIO")))
       /\ column rec "AGR_OBJECTS"
          = Some (default (lit "0") (findtext header (lit "AGR_OBJECTS")))
       /\ column rec "AGR_USERS"
          = Some (default (lit "0") (findtext header (lit "AGR_USERS"))))
  /\ (forall pre detail post,
        is_detail detail = true ->
        Forall (fun it => is_header_of (agr_name_of detail) it = false) pre ->
        exists rec after,
          (items_loop (pre ++ detail :: post)).2
          = (items_loop pre).2 ++ rec :: after
          /\ record_of rec detail
          /\ column rec "AGR_TEXT" = Some (default [] (findtext detail (lit "AGR_TEXT")))
          /\ column rec "AGR_CLASSIF"
             = Some (default [] (findtext detail (lit "AGR_CLASSIF")))
          /\ column rec "AGR_RATIO" = Some (default [] (findtext detail (lit "AGR_RATIO")))
          /\ column rec "AGR_OBJECTS"
             = Some (default (lit "0") (findtext detail (lit "AGR_OBJECTS")))
          /\ column rec "AGR_USERS"
             = Some (default (lit "0") (findtext detail (lit "AGR_USERS")))).
Proof.
  split.
  - intros role classif obj pre header mid detail post
      Hrole Hobj Hh_name Hh_obj Hh_classif Hd_name Hd_obj Hmid.
    assert (Hd : is_detail detail = true).
    { unfold is_detail. rewrite Hd_obj. by apply truthy_nonempty. }
    assert (Hinfo : (items_loop (pre ++ header :: mid)).1 !! role
                    = Some (role_header_info header)).
    { unfold items_loop. rewrite fold_item_step_app. cbv zeta. cbn [fst fold_left].
      rewrite item_step_eq.
      unfold is_header, is_detail. rewrite Hh_obj, Hh_name, Hh_classif.
      rewrite (truthy_nonempty role Hrole). cbn [truthy negb andb].
      rewrite bool_decide_eq_true_2 by eauto.
      rewrite fold_item_step_lookup by done. apply lookup_insert_eq. }
    replace (pre ++ header :: mid ++ detail :: post)
      with ((pre ++ header :: mid) ++ detail :: post)
      by (by rewrite <- app_assoc).
    rewrite (items_loop_detail _ detail post Hd).
    rewrite Hd_name, Hinfo, Hd_obj. simpl default.
    eexists _, _. split; [reflexivity|].
    destruct (role_header_info_lookup header) as (H1 & H2 & H3 & H4 & H5).
    unfold record_of, column, lice_data_obj, dict_get. simpl.
    rewrite H1, H2, H3, H4, H5, Hd_name, Hd_obj. simpl.
    unfold findtext_or. rewrite Hh_classif. simpl. done.
  - intros pre detail post Hd Hpre.
    rewrite (items_loop_detail pre detail post Hd).
    assert (Hnone : (items_loop pre).1 !! agr_name_of detail = None).
    { unfold items_loop. rewrite fold_item_step_lookup by done.
      apply lookup_empty. }
    rewrite Hnone. simpl default.
    eexists _, _. split; [reflexivity|].
    unfold record_of, column, lice_data_obj, dict_get. simpl.
    rewrite !lookup_empty. simpl. done.
Qed.

Lemma xml_aggregates_propagate_witness :
  agr_name_of header_R1 = lit "R1" /\ object_of header_R1 = []
  /\ findtext header_R1 (lit "AGR_CLASSIF") = Some (lit "C")
  /\ agr_name_of detail_R1 = lit "R1" /\ object_of detail_R1 = lit "O1"
  /\ findtext detail_R1 (lit "AGR_CLASSIF") = None
  /\ exists rec after,
       (items_loop ([] ++ header_R1 :: [] ++ detail_R1 :: [])).2
       = (items_loop ([] ++ header_R1 :: [])).2 ++ rec :: after
       /\ record_of rec detail_R1
       /\ column rec "AGR_CLASSIF" = Some (lit "C").
Proof.
  assert (H1 : agr_name_of header_R1 = lit "R1") by (vm_compute; reflexivity).
  assert (H2 : object_of header_R1 = []) by (vm_compute; reflexivity).
  assert (H3 : findtext header_R1 (lit "AGR_CLASSIF") = Some (lit "C"))
    by (vm_compute; reflexivity).
  assert (H4 : agr_name_of detail_R1 = lit "R1") by (vm_compute; reflexivity).
  assert (H5 : object_of detail_R1 = lit "O1") by (vm_compute; reflexivity).
  assert (H6 : findtext detail_R1 (lit "AGR_CLASSIF") = None)
    by (vm_compute; reflexivity).
  assert (Hr : lit "R1" <> []) by (vm_compute; discriminate).
  assert (Ho : lit "O1" <> []) by (vm_compute; discriminate).
  repeat (split; [assumption|]).
  destruct (proj1 xml_aggregates_propagate (lit "R1") (lit "C") (lit "O1")
              [] header_R1 [] detail_R1 [] Hr Ho H1 H2 H3 H4 H5 (Forall_nil_2 _))
    as (rec & after & Heq & Hrec & Hc & _).
  exists rec, after. repeat split; try assumption; apply Hrec.
Defined.

Lemma csv_decoding_never_fails_witness :
  decode_utf_8_sig [Byte.xff; Byte.x41] = None
  /\ exists csv_text,
       decode_csv_content [Byte.xff; Byte.x41] = inl csv_text
       /\ (decode_utf_8_sig [Byte.xff; Byte.x41] = Some csv_text
           \/ (decode_utf_8_sig [Byte.xff; Byte.x41] = None
               /\ decode_latin_1 [Byte.xff; Byte.x41] = Some csv_text)).
Proof.
  split.
  - vm_compute. reflexivity.
  - exact (proj1 (proj2 (csv_decoding_never_fails [Byte.xff; Byte.x41]))).
Defined.

(** * Further properties *)

(** ** Successful loads *)

(** X1.  When a load of any of the six kinds succeeds on a session with
    nothing pending: without a file nothing at all has changed; with a
    file, the input parsed to a list of objects, the result names the
    table of the model and counts those objects, the table exists, and the
    committed rows are what the session saw before with the rows of that
    table replaced by exactly those objects, every other table as it
    was. *)
Theorem load_success_replaces_table U F call client system w res w' :
  run_load U F call client system w = (inl res, w') ->
  pending (db w) = [] ->
  match parsed_of call with
  | None => w' = w /\ table_name res = None /\ records_loaded res = 0%nat
  | Some parsed =>
    exists objs t,
      parsed = inl objs
      /\ t = tablename (create_model U (kind_of_call call) client system (registry w)).1
      /\ table_name res = Some t
      /\ records_loaded res = length objs
      /\ t ∈ tables (db w')
      /\ committed (db w') = <[t := objs]> (session (db w))
      /\ session (db w') = committed (db w')
      /\ pending (db w') = []
  end.
Proof.
  rewrite run_load_course.
  destruct (parsed_of call) as [parsed|].
  - destruct (create_model U (kind_of_call call) client system (registry w)) as [m r1].
    destruct (load_course F m parsed _ (db w)) as [res0 d] eqn:E.
    intros [= -> <-] Hp.
    apply load_course_inl in E as (objs & -> & -> & Ht & _ & _ & Hc & Hs & Hp' & _);
      [|exact Hp].
    exists objs, (tablename m).
    cbn [success_result table_name records_loaded db fst].
    repeat split; try done.
    unfold has_table in Ht. by apply bool_decide_eq_true in Ht.
  - intros [= <- <-] _. done.
Qed.

Lemma load_course_again F m parsed failure d res d' :
  load_course F m parsed failure d = (inl res, d') ->
  pending d = [] ->
  load_course F m parsed failure d' = (inl res, d').
Proof.
  intros H Hp.
  destruct (load_course_inl _ _ _ _ _ _ _ H Hp)
    as (objs & -> & -> & Ht & Hd & Hk & Hc & Hs & Hp' & _).
  unfold load_course.
  rewrite (ensure_table_exists_skips _ _ _ Ht).
  rewrite Hd, Hk. unfold query_delete, add_all, commit.
  cbn [snd tables created committed session pending].
  rewrite Hp'. cbn [app]. rewrite flush_same_table. cbn [app].
  rewrite Hs, Hc, insert_insert_eq.
  f_equal. destruct d' as [t' c' cm' s' p']. cbn in *. by subst.
Qed.

(** X2.  A load that succeeded on a session with nothing pending, called
    again with the same file and tenant, succeeds again with the same
    result; it leaves the cache as it was, creates no table, and every table
    has as many committed rows as after the first call, with the same
    values, row by row, in every column but the key [id].  (The rows of the
    reloaded table are new rows: the database gives them new keys, about
    which nothing is said here.) *)
Theorem load_again_gives_same_values U F call client system w res w1 :
  run_load U F call client system w = (inl res, w1) ->
  pending (db w) = [] ->
  exists w2,
    run_load U F call client system w1 = (inl res, w2)
    /\ registry w2 = registry w1
    /\ tables (db w2) = tables (db w1)
    /\ created (db w2) = created (db w1)
    /\ pending (db w2) = []
    /\ forall t,
         length (rows_of (committed (db w2)) t) = length (rows_of (committed (db w1)) t)
         /\ forall name, name <> "id"%string ->
              column_values name (rows_of (committed (db w2)) t)
              = column_values name (rows_of (committed (db w1)) t).
Proof.
  intros H Hp. exists w1.
  assert (Hp1 : pending (db w1) = []).
  { revert H. rewrite run_load_course.
    destruct (parsed_of call) as [parsed|].
    - destruct (create_model U (kind_of_call call) client system (registry w))
        as [m r1].
      destruct (load_course F m parsed _ (db w)) as [res0 d] eqn:E.
      intros [= -> <-]. cbn [db].
      by apply load_course_inl in E as (_ & _ & _ & _ & _ & _ & _ & _ & ? & _).
    - by intros [= _ <-]. }
  split; [|by repeat split].
  revert H Hp.
  rewrite !run_load_course.
  destruct (parsed_of call) as [parsed|].
  - pose proof (create_model_again U (kind_of_call call) client system
                  client system (registry w) eq_refl) as Hagain.
    destruct (create_model U (kind_of_call call) client system (registry w))
      as [m r1].
    destruct (load_course F m parsed _ (db w)) as [res0 d] eqn:E.
    intros [= -> <-] Hp. cbn [registry db]. cbn [snd] in Hagain.
    rewrite Hagain.
    by rewrite (load_course_again _ _ _ _ _ _ _ E Hp).
  - by intros [= <- <-] _.
Qed.

(** ** Mapping CSV columns to model fields *)

Lemma field_map_names_distinct k : NoDup (List.map fst (field_map k)).
Proof. destruct k; apply (bool_decide_unpack _); vm_compute; exact I. Qed.

Lemma column_cons_ne (f0 f : string) (v : str) (d : row) :
  f0 <> f -> column ((f0, v) :: d) f = column d f.
Proof.
  intros Hne. unfold column. simpl.
  destruct (String.eqb_spec f0 f); [contradiction|reflexivity].
Qed.

Lemma column_cons_eq (f : string) (v : str) (d : row) :
  column ((f, v) :: d) f = Some v.
Proof. unfold column. simpl. by rewrite String.eqb_refl. Qed.

Lemma obj_data_names fm : forall (csv_row : list str) d,
  obj_data fm csv_row = inl d -> List.map fst d = List.map fst fm.
Proof.
  induction fm as [|[f i] fm IH]; intros csv_row d; simpl.
  - by intros [= <-].
  - destruct (csv_row !! i) as [v|]; [|discriminate].
    destruct (obj_data fm csv_row) as [d'|] eqn:E; [|discriminate].
    intros [= <-]. simpl. f_equal. by eapply IH.
Qed.

Lemma obj_data_columns fm : forall (csv_row : list str) d,
  NoDup (List.map fst fm) ->
  obj_data fm csv_row = inl d ->
  forall f i, In (f, i) fm -> column d f = csv_row !! i /\ is_Some (csv_row !! i).
Proof.
  induction fm as [|[f0 i0] fm IH]; intros csv_row d Hnd Hd f i Hin; simpl in *.
  - contradiction.
  - apply NoDup_cons in Hnd as [Hf0 Hnd].
    destruct (csv_row !! i0) as [v|] eqn:Ev; [|discriminate].
    destruct (obj_data fm csv_row) as [d'|] eqn:E; [|discriminate].
    injection Hd as <-.
    destruct Hin as [[= -> ->]|Hin].
    + rewrite column_cons_eq, Ev. eauto.
    + rewrite column_cons_ne; [by eapply IH|].
      intros ->. apply Hf0. apply list_elem_of_In.
      by apply (in_map fst) in Hin.
Qed.

Lemma rows_loop_full k (data : list (list str)) : forall j acc,
  Forall (fun r => (required_columns k <= length r)%nat) data ->
  exists objs,
    rows_loop (field_map k) j data acc = inl (acc ++ objs)
    /\ Forall2 (fun o r => obj_data (field_map k) r = inl o) objs data.
Proof.
  induction data as [|r data IH]; intros j acc H; simpl.
  - exists []. split; [by rewrite app_nil_r|constructor].
  - apply Forall_cons in H as [Hr H].
    destruct (obj_data_full_row k r Hr) as [d Hd]. rewrite Hd.
    destruct (IH (S j) (acc ++ [d]) H) as (objs & -> & Hobjs).
    exists (d :: objs). split; [by rewrite <- app_assoc|by constructor].
Qed.

(** X3.  When every data row has at least the columns the kind requires
    and the reader does not fail, parsing succeeds with one object per data
    row, in order; each object has exactly the fields of [field_map], in
    its order, and the field mapped to index [i] holds column [i] of its
    row. *)
Theorem csv_full_rows_are_mapped k content csv_text header data :
  decode_csv_content content = inl csv_text ->
  csv_reader (splitlines csv_text) = (header :: data, None) ->
  Forall (fun r => (required_columns k <= length r)%nat) data ->
  exists objs,
    parse_csv (field_map k) content = inl objs
    /\ Forall2
         (fun o r =>
            List.map fst o = List.map fst (field_map k)
            /\ forall f i, In (f, i) (field_map k) ->
                 column o f = r !! i /\ is_Some (r !! i))
         objs data.
Proof.
  intros Hdec Hread Hfull. unfold parse_csv. rewrite Hdec, Hread.
  destruct (rows_loop_full k data 0 [] Hfull) as (objs & -> & Hobjs).
  exists objs. split; [reflexivity|].
  apply (Forall2_impl _ _ _ _ Hobjs).
  intros o r Ho. split.
  - by eapply obj_data_names.
  - by apply (obj_data_columns _ _ _ (field_map_names_distinct k) Ho).
Qed.

Lemma obj_data_take fm (n : nat) : forall csv_row : list str,
  (forall i, In i (List.map snd fm) -> (i < n)%nat) ->
  obj_data fm (take n csv_row) = obj_data fm csv_row.
Proof.
  induction fm as [|[f i] fm IH]; intros csv_row H; simpl in *.
  - reflexivity.
  - rewrite lookup_take_lt by (apply H; auto).
    rewrite IH by auto. reflexivity.
Qed.

(** X4.  Columns beyond those the kind requires play no part: cutting every
    data row down to the required number of columns gives the same objects
    or the same error. *)
Theorem csv_extra_columns_are_ignored k (data : list (list str)) : forall i acc,
  rows_loop (field_map k) i (List.map (take (required_columns k)) data) acc
  = rows_loop (field_map k) i data acc.
Proof.
  induction data as [|r data IH]; intros i acc; simpl.
  - reflexivity.
  - rewrite obj_data_take.
    + destruct (obj_data (field_map k) r) as [d|e]; [apply IH|reflexivity].
    + intros j Hj. rewrite field_map_indices in Hj. apply in_seq in Hj. lia.
Qed.

(** ** Table names of different kinds *)

Lemma get_tablename_ending U k client system :
  exists front, get_tablename U k client system = front ++ kind_ending k.
Proof.
  destruct k; simpl;
    unfold get_lice_data_tablename, get_auth_data_tablename,
      get_role_fiori_data_tablename, get_role_master_derived_data_tablename,
      get_user_data_tablename, get_user_role_data_tablename; cbv zeta.
  - exists (lit "Z_FUE_" ++ clean_client_name U client ++ lit "_"
            ++ clean_system_name U system ++ lit "_ROLE_OBJ_LICEN").
    rewrite <- !app_assoc. reflexivity.
  - exists (lit "Z_FUE_" ++ clean_client_name U client ++ lit "_"
            ++ clean_system_name U system ++ lit "_ROLE_AUTH_O").
    rewrite <- !app_assoc. reflexivity.
  - exists (lit "Z_FUE_" ++ clean_client_name U client ++ lit "_"
            ++ clean_system_name U system ++ lit "_ROLE_FIO").
    rewrite <- !app_assoc. reflexivity.
  - exists (lit "Z_FUE_" ++ clean_client_name U client ++ lit "_"
            ++ clean_system_name U system ++ lit "_ROLE_MASTER_DER").
    rewrite <- !app_assoc. reflexivity.
  - exists (lit "Z_FUE_" ++ clean_client_name U client ++ lit "_"
            ++ clean_system_name U system ++ lit "_USER_RO").
    rewrite <- !app_assoc. reflexivity.
  - exists (lit "Z_FUE_" ++ clean_client_name U client ++ lit "_"
            ++ clean_system_name U system ++ lit "_US").
    rewrite <- !app_assoc. reflexivity.
Qed.

Lemma get_tablename_kind U k1 k2 client1 system1 client2 system2 :
  get_tablename U k1 client1 system1 = get_tablename U k2 client2 system2 ->
  k1 = k2.
Proof.
  intros H.
  destruct (get_tablename_ending U k1 client1 system1) as [f1 H1].
  destruct (get_tablename_ending U k2 client2 system2) as [f2 H2].
  rewrite H1, H2 in H.
  apply app_inj_2 in H as [_ H]; [|by destruct k1, k2].
  destruct k1, k2; (reflexivity || (vm_compute in H; discriminate)).
Qed.

(** X5.  Table names of different kinds never coincide, whatever the
    clients and systems: equal table names come from the same kind, so the
    one cache shared by the six constructors cannot mix them up. *)
Theorem tablename_determines_kind U k1 k2 client1 system1 client2 system2 :
  get_tablename U k1 client1 system1 = get_tablename U k2 client2 system2 ->
  k1 = k2.
Proof.
  intros H.
  destruct (get_tablename_ending U k1 client1 system1) as [front1 H1].
  destruct (get_tablename_ending U k2 client2 system2) as [front2 H2].
  rewrite H1, H2 in H.
  apply app_inj_2 in H as [_ Hend]; [|by destruct k1, k2].
  destruct k1, k2; (reflexivity || (vm_compute in Hend; discriminate)).
Qed.

(** ** The cache over time *)

Lemma create_model_new_class U k client system r :
  exists new_class,
    tablename new_class = get_tablename U k client system
    /\ base new_class = base_of k
    /\ create_model U k client system r
       = cached_or_new (get_tablename U k client system) new_class r.
Proof. destruct k; (eexists; split; [|split; [|reflexivity]]; reflexivity). Qed.

(** X6.  On a cache in which every class sits under its own table name
    and has the columns of the kind that name belongs to, every
    constructor returns a class with its own mixin and with the table name
    of the tenant, whether it was cached or newly built, and the cache
    stays like that. *)
Theorem create_model_keeps_registry_sound U k client system r :
  registry_sound U r ->
  base (create_model U k client system r).1 = base_of k
  /\ tablename (create_model U k client system r).1 = get_tablename U k client system
  /\ registry_sound U (create_model U k client system r).2.
Proof.
  intros Hr.
  destruct (create_model_new_class U k client system r) as (new & Ht & Hb & ->).
  unfold cached_or_new.
  destruct (dynamic_models_cache r !! get_tablename U k client system)
    as [m0|] eqn:E; cbn [fst snd].
  - destruct (Hr _ _ E) as (Hm0 & k' & c' & s' & Heq & Hbase).
    apply get_tablename_kind in Heq as <-. done.
  - split; [exact Hb|]. split; [exact Ht|].
    intros t m. cbn [dynamic_models_cache]. rewrite lookup_insert.
    case_decide as Hd.
    + intros [= <-]. subst t. split; [exact Ht|]. eauto.
    + apply Hr.
Qed.

Lemma cached_or_new_keeps t new r t0 m0 :
  dynamic_models_cache r !! t0 = Some m0 ->
  dynamic_models_cache (cached_or_new t new r).2 !! t0 = Some m0.
Proof.
  intros H. unfold cached_or_new.
  destruct (dynamic_models_cache r !! t) as [m|] eqn:E; cbn [snd]; [exact H|].
  cbn [dynamic_models_cache]. rewrite lookup_insert_ne; [exact H|].
  intros ->. congruence.
Qed.

Lemma cached_or_new_constructed_once t new r :
  tablename new = t ->
  constructed_once r -> constructed_once (cached_or_new t new r).2.
Proof.
  intros Ht [Hnd Hc]. unfold cached_or_new.
  destruct (dynamic_models_cache r !! t) as [m|] eqn:E; cbn [snd]; [by split|].
  assert (Hfresh : forall m, m ∈ constructed r -> tablename m <> t).
  { intros m Hm Heq. apply Hc in Hm. congruence. }
  split; cbn [constructed dynamic_models_cache].
  - rewrite map_app. apply NoDup_app. split; [exact Hnd|]. split.
    + intros x Hx Hx'. simpl in Hx'. apply list_elem_of_singleton in Hx'.
      apply list_elem_of_In, in_map_iff in Hx as (m & <- & Hm).
      apply list_elem_of_In in Hm. apply (Hfresh m Hm). congruence.
    + simpl. apply NoDup_singleton.
  - intros m Hm. apply elem_of_app in Hm as [Hm|Hm].
    + rewrite lookup_insert_ne; [by apply Hc|].
      intros Heq. by apply (Hfresh m Hm).
    + apply list_elem_of_singleton in Hm as ->.
      rewrite Ht. apply lookup_insert_eq.
Qed.

Lemma run_load_registry U F call client system w :
  registry (run_load U F call client system w).2
  = match parsed_of call with
    | None => registry w
    | Some _ => (create_model U (kind_of_call call) client system (registry w)).2
    end.
Proof.
  rewrite run_load_course.
  destruct (parsed_of call) as [parsed|]; [|reflexivity].
  destruct (create_model U (kind_of_call call) client system (registry w)) as [m r1].
  by destruct (load_course F m parsed _ (db w)).
Qed.

Lemma run_load_tables U F call client system w :
  tables (db w) ⊆ tables (db (run_load U F call client system w).2).
Proof.
  rewrite run_load_course.
  destruct (parsed_of call) as [parsed|]; [|reflexivity].
  destruct (create_model U (kind_of_call call) client system (registry w)) as [m r1].
  pose proof (load_course_schema F m parsed
    (match call with CallXml _ => xml_failure | CallCsv _ _ => csv_failure end)
    (db w)) as [Ht _].
  destruct (load_course F m parsed _ (db w)) as [res d]. cbn [snd db] in Ht |- *.
  rewrite Ht. clear Ht. unfold ensure_table_exists, create_table.
  destruct (has_table (db w) (tablename m)); cbn [negb snd]; [done|].
  destruct (create_fault F); cbn [snd tables]; set_solver.
Qed.

(** X7.  Over any run of loads, failed or not, a cached class stays
    cached under its name and is never replaced, and a table that exists
    keeps existing. *)
Theorem loads_never_drop_or_overwrite U calls : forall w,
  (forall t m,
     dynamic_models_cache (registry w) !! t = Some m ->
     dynamic_models_cache (registry (run_loads U calls w)) !! t = Some m)
  /\ tables (db w) ⊆ tables (db (run_loads U calls w)).
Proof.
  unfold run_loads.
  induction calls as [|[[[F call] client] system] calls IH]; intros w.
  - split; [auto|reflexivity].
  - cbn [fold_left fst snd].
    destruct (IH (run_load U F call client system w).2) as [IH1 IH2].
    split.
    + intros t m H. apply IH1. rewrite run_load_registry.
      destruct (parsed_of call); [|exact H].
      destruct (create_model_new_class U (kind_of_call call) client system (registry w))
        as (new & _ & _ & ->).
      by apply cached_or_new_keeps.
    + etrans; [apply run_load_tables|exact IH2].
Qed.

(** X8.  Over any run of loads no two classes are ever constructed for
    the same table name, and each constructed class is the one the cache
    holds for its table name. *)
Theorem loads_construct_each_class_once U calls : forall w,
  constructed_once (registry w) ->
  constructed_once (registry (run_loads U calls w)).
Proof.
  unfold run_loads.
  induction calls as [|[[[F call] client] system] calls IH]; intros w H.
  - exact H.
  - cbn [fold_left fst snd]. apply IH. rewrite run_load_registry.
    destruct (parsed_of call); [|exact H].
    destruct (create_model_new_class U (kind_of_call call) client system (registry w))
      as (new & Ht & _ & ->).
    by apply cached_or_new_constructed_once.
Qed.

(** ** Table names as identifiers *)

Lemma get_tablename_parts U k client system :
  exists suffix,
    Forall (fun c => c < 128) (lit suffix)
    /\ forallb settled (lit suffix) = true
    /\ get_tablename U k client system
       = lit "Z_FUE_" ++ clean_client_name U client ++ lit "_"
         ++ clean_system_name U system ++ lit suffix.
Proof.
  destruct k; (eexists; split; [|split; [|reflexivity]];
    [vm_compute; repeat constructor|vm_compute; reflexivity]).
Qed.

(** X9.  For ASCII client and system names the table name of every kind
    starts with Z_FUE_ and consists of upper-case letters, digits and
    underscores only. *)
Theorem tablename_is_plain_identifier U k client system :
  extends_ascii U = true ->
  Forall (fun c => c < 128) client -> Forall (fun c => c < 128) system ->
  forallb settled (get_tablename U k client system) = true
  /\ take 6 (get_tablename U k client system) = lit "Z_FUE_".
Proof.
  intros HU Hc Hs.
  destruct (get_tablename_parts U k client system) as (suffix & _ & Hsuf & ->).
  split; [|reflexivity].
  rewrite !forallb_app, Hsuf.
  rewrite (clean_client_name_ascii U client HU Hc).
  rewrite (clean_system_name_ascii U system HU Hs).
  unfold clean_system_name.
  fold (clean_client_name unicodedata system).
  rewrite (clean_client_name_settles client Hc).
  rewrite (clean_client_name_settles system Hs).
  reflexivity.
Qed.

Lemma cleaned_char_toupper U c :
  extends_ascii U = true ->
  cleaned_char U (ascii_toupper c) = cleaned_char U c.
Proof.
  intros HU.
  destruct (N.lt_ge_cases c 128) as [Hc|Hc].
  - assert (Hu : ascii_toupper c < 128).
    { unfold ascii_toupper. case_match; lia. }
    rewrite (cleaned_char_ascii U _ HU Hu), (cleaned_char_ascii U _ HU Hc).
    pose proof (below_128
      (fun c => str_eqb (cleaned_char unicodedata (ascii_toupper c))
                  (cleaned_char unicodedata c))) as HP.
    specialize (HP ltac:(vm_compute; reflexivity) c Hc).
    unfold str_eqb in HP. by apply bool_decide_eq_true in HP.
  - unfold ascii_toupper.
    destruct ((97 <=? c) && (c <=? 122)) eqn:E; [|reflexivity].
    apply andb_prop in E as [_ E]. apply N.leb_le in E. lia.
Qed.

Lemma cleaned_char_space U c :
  extends_ascii U = true ->
  cleaned_char U (if c =? 32 then 95 else c) = cleaned_char U c.
Proof.
  intros HU. destruct (N.eqb_spec c 32) as [->|Hc]; [|reflexivity].
  unfold cleaned_char. simpl.
  assert (Hw : is_word U 95 = true).
  { unfold is_word. by rewrite orb_true_r. }
  rewrite Hw. apply toupper_ascii; [done|lia].
Qed.

Lemma clean_client_name_ext U (g : N -> N) s :
  extends_ascii U = true ->
  (forall c, cleaned_char U (g c) = cleaned_char U c) ->
  clean_client_name U (List.map g s) = clean_client_name U s.
Proof.
  intros HU Hg. rewrite !clean_client_name_flat_map by done.
  induction s as [|c s IH]; simpl; [reflexivity|].
  by rewrite Hg, IH.
Qed.

Lemma get_tablename_cleaned U k client system client' system' :
  clean_client_name U client' = clean_client_name U client ->
  clean_system_name U system' = clean_system_name U system ->
  get_tablename U k client' system' = get_tablename U k client system.
Proof.
  intros Hc Hs.
  destruct k; simpl;
    unfold get_lice_data_tablename, get_auth_data_tablename,
      get_role_fiori_data_tablename, get_role_master_derived_data_tablename,
      get_user_data_tablename, get_user_role_data_tablename;
    cbv zeta; by rewrite Hc, Hs.
Qed.

(** X10.  The table name does not tell ASCII letter case apart, nor a
    space from an underscore: upper-casing the ASCII letters of client and
    system, or writing their spaces as underscores, gives the same table
    for every kind. *)
Theorem tablename_ignores_case_and_spacing U k client system :
  extends_ascii U = true ->
  get_tablename U k (List.map ascii_toupper client) (List.map ascii_toupper system)
  = get_tablename U k client system
  /\ get_tablename U k (replace_space_underscore client)
       (replace_space_underscore system)
     = get_tablename U k client system.
Proof.
  intros HU. split; apply get_tablename_cleaned;
    unfold clean_system_name, replace_space_underscore;
    try fold (clean_client_name U (List.map ascii_toupper system));
    try fold (clean_client_name U system).
  - apply clean_client_name_ext; [done|]. intros c. by apply cleaned_char_toupper.
  - apply (clean_client_name_ext U ascii_toupper system HU).
    intros c. by apply cleaned_char_toupper.
  - apply (clean_client_name_ext U (fun c => if c =? 32 then 95 else c) client HU).
    intros c. by apply cleaned_char_space.
  - apply (clean_client_name_ext U (fun c => if c =? 32 then 95 else c) system HU).
    intros c. by apply cleaned_char_space.
Qed.

(** ** Items the XML loop passes over *)

Lemma fold_item_step_ignored items : forall st,
  fold_left item_step (List.filter (fun it => negb (is_ignored it)) items) st
  = fold_left item_step items st.
Proof.
  induction items as [|item items IH]; intros [ri acc]; [reflexivity|].
  cbn [List.filter fold_left].
  destruct (is_ignored item) eqn:E; cbn [negb].
  - rewrite IH, item_step_eq. unfold is_ignored in E.
    apply andb_prop in E as [E1 E2].
    apply negb_true_iff in E1, E2. by rewrite E1, E2.
  - cbn [fold_left]. apply IH.
Qed.

(** X11.  Items that are neither a detail row nor a header (no OBJECT
    value, and no AGR_CLASSIF element or no role name) have no effect: in a
    document with at least one detail row the parsed objects are those of
    the document with these items removed. *)
Theorem xml_ignored_items_change_nothing root :
  Exists (fun it => is_detail it = true) (findall_items root) ->
  parse_lice_xml (WellFormed root)
  = inl (items_loop (List.filter (fun it => negb (is_ignored it)) (findall_items root))).2.
Proof.
  intros Hex.
  pose proof (parse_lice_xml_cases (WellFormed root)) as H.
  unfold items_loop at 1. rewrite fold_item_step_ignored.
  destruct (parse_lice_xml (WellFormed root)) as [objs|e].
  - destruct H as [_ ->]. reflexivity.
  - exfalso. cbn [items_of] in H.
    destruct H as [(msg & [=] & _)|[(_ & Hnil & _)|(_ & _ & Hall & _)]].
    + rewrite Hnil in Hex. by apply Exists_nil in Hex.
    + apply Exists_exists in Hex as (it & Hin & Hit).
      rewrite Forall_forall in Hall. apply Hall in Hin. congruence.
Qed.

(** X12.  A detail item without a role name never inherits aggregates,
    whatever headers came before it: its record is built from its own
    fields and the defaults. *)
Theorem xml_detail_without_role_keeps_own_fields pre detail post :
  is_detail detail = true ->
  agr_name_of detail = [] ->
  (items_loop (pre ++ detail :: post)).2
  = (items_loop pre).2
    ++ lice_data_obj ∅ [] (object_of detail) detail
    :: (fold_left item_step post ((items_loop pre).1, [])).2.
Proof.
  intros Hd Hn.
  rewrite (items_loop_detail pre detail post Hd), Hn.
  assert (Hnone : (items_loop pre).1 !! ([] : str) = None).
  { unfold items_loop. rewrite fold_item_step_lookup; [apply lookup_empty|].
    apply Forall_forall. intros it _. unfold is_header_of, is_header.
    destruct (agr_name_of it) eqn:E; cbn [truthy].
    - by rewrite andb_false_r.
    - change (str_eqb (n :: l) []) with false. by rewrite andb_false_r. }
  by rewrite Hnone.
Qed.

(** ** Decoding *)

Lemma utf_8_decode_ascii (bs : list N) :
  Forall (fun b => b < 128) bs -> utf_8_decode bs = Some bs.
Proof.
  induction 1 as [|b bs Hb _ IH]; [reflexivity|].
  simpl. apply N.ltb_lt in Hb. rewrite Hb, IH. reflexivity.
Qed.

Lemma decode_utf_8_sig_no_mark (content : bytes) b rest :
  List.map Byte.to_N content = b :: rest -> b < 128 ->
  decode_utf_8_sig content = utf_8_decode (b :: rest).
Proof.
  intros E Hb. unfold decode_utf_8_sig. rewrite E.
  destruct b as [|p]; [reflexivity|].
  repeat (destruct p as [p|p|]; try reflexivity); lia.
Qed.

(** X13.  ASCII content decodes to the same characters, and a UTF-8
    byte-order mark in front of it is dropped. *)
Theorem csv_ascii_content_decodes_to_itself (content : bytes) :
  Forall (fun b => Byte.to_N b < 128) content ->
  decode_csv_content content = inl (List.map Byte.to_N content)
  /\ decode_csv_content (Byte.xef :: Byte.xbb :: Byte.xbf :: content)
     = inl (List.map Byte.to_N content).
Proof.
  intros H.
  assert (Hn : Forall (fun b => b < 128) (List.map Byte.to_N content)).
  { induction H; constructor; auto. }
  pose proof (utf_8_decode_ascii _ Hn) as Hu.
  unfold decode_csv_content. split.
  - destruct (List.map Byte.to_N content) as [|b0 rest] eqn:E.
    + unfold decode_utf_8_sig. by rewrite E.
    + apply Forall_cons in Hn as [Hb0 _].
      by rewrite (decode_utf_8_sig_no_mark content b0 rest E Hb0), Hu.
  - unfold decode_utf_8_sig. cbn [List.map].
    change (Byte.to_N Byte.xef) with 0xEF.
    change (Byte.to_N Byte.xbb) with 0xBB.
    change (Byte.to_N Byte.xbf) with 0xBF.
    cbv iota beta. by rewrite Hu.
Qed.

(** ** Reading a CSV text without quotes *)

Lemma parse_line_cons r c line :
  parse_line r (c :: line)
  = match parse_process_char r (Some c) with
    | inl r' => parse_line r' line
    | inr e => inr e
    end.
Proof.
  unfold parse_line. simpl.
  by destruct (parse_process_char r (Some c)).
Qed.

Lemma parse_process_char_in_field r c :
  state r = START_FIELD \/ state r = IN_FIELD ->
  plain c ->
  N.of_nat (length (field r)) < field_limit ->
  parse_process_char r (Some c)
  = inl (if c =? 44
         then {| state := START_FIELD; fields := fields r ++ [field r]; field := [] |}
         else {| state := IN_FIELD; fields := fields r; field := field r ++ [c] |}).
Proof.
  intros Hst [Hq Hnl] Hlen.
  assert (Hq' : (c =? 34) = false) by by apply N.eqb_neq.
  assert (Hl : (field_limit <=? N.of_nat (length (field r))) = false)
    by (apply N.leb_gt; lia).
  unfold parse_process_char, add_char_then, parse_add_char, parse_save_field, set_state.
  destruct Hst as [-> | ->]; rewrite Hnl, ?Hq', Hl;
    destruct (c =? 44); reflexivity.
Qed.

Lemma parse_line_in_field line : forall r,
  state r = START_FIELD \/ state r = IN_FIELD ->
  Forall plain line ->
  N.of_nat (length (field r) + length line) <= field_limit ->
  parse_line r line
  = inl {| state := START_RECORD;
           fields := fields r ++ split_commas_from (field r) line;
           field := [] |}.
Proof.
  induction line as [|c line IH]; intros r Hst Hplain Hlen.
  - unfold parse_line, parse_chars, parse_process_char, parse_save_field, set_state.
    by destruct Hst as [-> | ->].
  - apply Forall_cons in Hplain as [Hc Hplain].
    rewrite parse_line_cons, parse_process_char_in_field; [|done|done|simpl in Hlen; lia].
    simpl in Hlen. cbn [split_commas_from].
    destruct (c =? 44).
    + rewrite IH; [|by left|done|simpl; lia].
      cbn [fields field]. by rewrite <- app_assoc.
    + rewrite IH; [|by right|done|simpl; rewrite length_app; simpl; lia].
      reflexivity.
Qed.

Lemma parse_line_plain line :
  Forall plain line ->
  N.of_nat (length line) <= field_limit ->
  parse_line parse_reset line
  = inl {| state := START_RECORD; fields := record_of_line line; field := [] |}.
Proof.
  intros Hplain Hlen. destruct line as [|c line]; [reflexivity|].
  transitivity (parse_line (set_state START_FIELD parse_reset) (c :: line)).
  - rewrite !parse_line_cons. apply Forall_cons in Hplain as [[_ Hnl] _].
    unfold parse_process_char. cbn [state parse_reset set_state]. by rewrite Hnl.
  - rewrite parse_line_in_field; [reflexivity|by left|done|exact Hlen].
Qed.

Lemma reader_from_plain lines :
  Forall (fun line => Forall plain line /\ N.of_nat (length line) <= field_limit) lines ->
  reader_from parse_reset lines = (List.map record_of_line lines, None).
Proof.
  induction 1 as [|line lines [Hp Hl] _ IH]; [reflexivity|].
  cbn [reader_from List.map]. rewrite parse_line_plain by done.
  cbn [state fields]. by rewrite IH.
Qed.

Lemma is_crnl_linebreak c : is_linebreak c = false -> is_crnl c = false.
Proof.
  unfold is_linebreak, is_crnl. rewrite !orb_false_iff, !andb_false_iff.
  rewrite !N.leb_gt, !N.eqb_neq. lia.
Qed.

Lemma splitlines_from_lines (P : N -> Prop) (n : nat) : forall s cur,
  (length s <= n)%nat ->
  Forall (fun c => is_linebreak c = false /\ P c) cur ->
  Forall P s ->
  Forall (fun line =>
            Forall (fun c => is_linebreak c = false /\ P c) line
            /\ (length line <= length cur + length s)%nat)
    (splitlines_from cur s).
Proof.
  induction n as [|n IH]; intros s cur Hn Hcur Hs.
  - destruct s; [|simpl in Hn; lia]. simpl.
    destruct cur; [constructor|].
    constructor; [|constructor]. split; [done|lia].
  - destruct s as [|c s]; simpl.
    { destruct cur; [constructor|].
      constructor; [|constructor]. split; [done|simpl; lia]. }
    apply Forall_cons in Hs as [Hc Hs]. simpl in Hn.
    assert (Hweak : forall lines : list str,
      Forall (fun line =>
                Forall (fun c => is_linebreak c = false /\ P c) line
                /\ (length line <= length (@nil N) + length s)%nat) lines ->
      Forall (fun line =>
                Forall (fun c => is_linebreak c = false /\ P c) line
                /\ (length line <= length cur + S (length s))%nat) (cur :: lines)).
    { intros lines H. constructor; [split; [done|lia]|].
      eapply Forall_impl; [exact H|]. intros line [? ?]. split; [done|simpl in *; lia]. }
    destruct (is_linebreak c) eqn:Eb.
    + destruct s as [|c' s'].
      * apply Hweak. apply IH; [simpl; lia|constructor|constructor].
      * assert (Hrest : Forall (fun line =>
                  Forall (fun c => is_linebreak c = false /\ P c) line
                  /\ (length line <= length (@nil N) + length (c' :: s'))%nat)
                  (splitlines_from [] (c' :: s'))).
        { apply IH; [lia|constructor|done]. }
        assert (Hrest' : Forall (fun line =>
                  Forall (fun c => is_linebreak c = false /\ P c) line
                  /\ (length line <= length (@nil N) + length (c' :: s'))%nat)
                  (splitlines_from [] s')).
        { apply Forall_cons in Hs as [_ Hs'].
          eapply Forall_impl; [apply (IH s' []); [simpl in *; lia|constructor|done]|].
          intros line [? ?]. split; [done|simpl in *; lia]. }
        destruct c' as [|p]; [by apply Hweak|].
        repeat (destruct p as [p|p|]; try by apply Hweak).
        destruct (c =? 13); by apply Hweak.
    + eapply Forall_impl.
      * apply (IH s (cur ++ [c])); [lia| |done].
        apply Forall_app. split; [done|]. by constructor.
      * intros line [? Hl]. split; [done|].
        rewrite length_app in Hl. simpl in *. lia.
Qed.

(** X14.  A CSV text without double quotes, not longer than the reader's
    field limit, is read line by line: record [n] is line [n] cut at its
    commas, an empty line being the empty record, and the reader does not
    fail.  So the first line is the one skipped, data row [i] is line
    [i + 2], and a file without any line fails with [StopIteration]. *)
Theorem csv_without_quotes_is_read_line_by_line fm content csv_text :
  decode_csv_content content = inl csv_text ->
  Forall (fun c => c <> 34) csv_text ->
  N.of_nat (length csv_text) <= field_limit ->
  csv_reader (splitlines csv_text)
  = (List.map record_of_line (splitlines csv_text), None)
  /\ parse_csv fm content
     = match List.map record_of_line (splitlines csv_text) with
       | [] => inr StopIteration
       | _ :: data => rows_loop fm 0 data []
       end.
Proof.
  intros Hdec Hq Hlen.
  assert (Hread : csv_reader (splitlines csv_text)
                  = (List.map record_of_line (splitlines csv_text), None)).
  { unfold csv_reader. apply reader_from_plain.
    pose proof (splitlines_from_lines (fun c => c <> 34) (length csv_text)
                  csv_text [] (le_n _) (Forall_nil_2 _) Hq) as H.
    eapply Forall_impl; [exact H|].
    intros line [Hline Hl]. split.
    - eapply Forall_impl; [exact Hline|]. intros c [Hb Hc].
      split; [exact Hc|by apply is_crnl_linebreak].
    - simpl in Hl. lia. }
  split; [exact Hread|].
  unfold parse_csv. rewrite Hdec, Hread.
  destruct (List.map record_of_line (splitlines csv_text)) as [|h data]; [reflexivity|].
  by destruct (rows_loop fm 0 data []).
Qed.

(** ** Logging set-up *)

(** X15.  Whatever handlers the logger had, after [configure_logging] it
    has the stream handler at ERROR and, if the log file could be opened,
    the file handler at INFO and nothing else, and its level is INFO;
    handlers do not pile up over repeated calls.  Without a client name the
    file is app-<timestamp>.log, whatever the system id. *)
Theorem configure_logging_replaces_handlers fs_ok timestamp client_name system_id l :
  handlers (configure_logging fs_ok timestamp client_name system_id l).2
  = StreamHandler ERROR
    :: (if fs_ok
        then [FileHandler
                (os_path_join_logs (log_filename client_name system_id timestamp))
                INFO]
        else [])
  /\ level (configure_logging fs_ok timestamp client_name system_id l).2 = Some INFO
  /\ (given client_name = false ->
      log_filename client_name system_id timestamp
      = lit "app-" ++ timestamp ++ lit ".log").
Proof.
  assert (Hc : (if hasHandlers l then [] else handlers l) = []).
  { unfold hasHandlers. by destruct (handlers l), (ancestor_handlers l). }
  unfold configure_logging. rewrite Hc.
  split; [by destruct fs_ok|]. split; [by destruct fs_ok|].
  intros Hg. unfold log_filename. by rewrite Hg.
Qed.

(** ** A table that cannot be created *)

(** X16.  When the table is missing and its creation fails, the load
    raises the database's own error, not a [DataLoaderError], and the
    database is untouched; the model class, however, stays in the cache
    under its table name. *)
Theorem provisioning_failure_keeps_class_cached U F call client system w msg parsed :
  parsed_of call = Some parsed ->
  create_fault F = Some msg ->
  has_table (db w)
    (tablename (create_model U (kind_of_call call) client system (registry w)).1)
  = false ->
  exists w',
    run_load U F call client system w = (inr (DBAPIError msg), w')
    /\ db w' = db w
    /\ dynamic_models_cache (registry w')
         !! get_tablename U (kind_of_call call) client system
       = Some (create_model U (kind_of_call call) client system (registry w)).1.
Proof.
  intros Hp Hf Ht. rewrite run_load_course, Hp.
  destruct (create_model_unfold U (kind_of_call call) client system (registry w))
    as (new & _ & Hnew).
  pose proof (cached_or_new_cached (get_tablename U (kind_of_call call) client system)
                new (registry w)) as Hcached.
  rewrite <- Hnew in Hcached.
  destruct (create_model U (kind_of_call call) client system (registry w)) as [m r1].
  cbn [fst snd] in *.
  unfold load_course, ensure_table_exists, create_table.
  rewrite Ht, Hf. cbn [negb].
  eexists. split; [reflexivity|]. split; [reflexivity|exact Hcached].
Qed.

(** ** Loaded objects against the declared columns *)

Lemma items_loop_objects items : forall ri,
  Forall
    (fun o =>
       List.map fst o = List.map fst (lice_data_obj ∅ [] [] (Elem [] None []))
       /\ exists v, column o "OBJECT" = Some v /\ v <> [])
    (fold_left item_step items (ri, [])).2.
Proof.
  induction items as [|item items IH]; intros ri.
  - constructor.
  - cbn [fold_left]. rewrite item_step_eq.
    destruct (is_detail item) eqn:E.
    + rewrite fold_item_step_acc. cbn [snd app].
      constructor; [|apply IH]. split; [reflexivity|].
      exists (object_of item). split; [reflexivity|].
      unfold is_detail in E. by destruct (object_of item).
    + destruct (is_header item); apply IH.
Qed.

(** X17.  The loaders only set attributes the model class has, and they set
    every column declared NOT NULL (the key apart, which the database
    assigns): the fields of each CSV [field_map] are columns of the mixin
    of its kind and include all its NOT NULL columns, and every object of
    the XML loader has exactly the columns of its mixin but the key, with a
    non-empty OBJECT. *)
Theorem loaders_fill_declared_columns :
  (forall k,
     Forall (fun f => f ∈ column_names (base_of (kind_of k)))
       (List.map fst (field_map k))
     /\ Forall (fun c => c ∈ List.map fst (field_map k))
          (required_names (base_of (kind_of k))))
  /\ (forall items,
        Forall
          (fun o =>
             "id"%string :: List.map fst o = column_names BaseLiceData
             /\ exists v, column o "OBJECT" = Some v /\ v <> [])
          (items_loop items).2).
Proof.
  split.
  - intros k. split; destruct k; apply (bool_decide_unpack _); vm_compute; exact I.
  - intros items. unfold items_loop.
    eapply Forall_impl; [apply items_loop_objects|].
    intros o [Hn Hv]. split; [|exact Hv]. rewrite Hn. reflexivity.
Qed.

(** * Instances *)

Lemma load_success_replaces_table_witness :
  let call := CallCsv CsvMasterDerived (Some two_rows_csv) in
  let objs : list row :=
    [[("DERIVED_ROLE"%string, lit "D1"); ("MASTER_ROLE"%string, lit "M1")];
     [("DERIVED_ROLE"%string, lit "D2"); ("MASTER_ROLE"%string, lit "M2")]] in
  let r := run_load unicodedata no_faults call (lit "ACME") (lit "PRD") acme_world in
  r.1 = inl (success_result acme_table objs)
  /\ pending (db acme_world) = []
  /\ exists objs' t,
       parse_csv (field_map CsvMasterDerived) two_rows_csv = inl objs'
       /\ t = tablename (create_model unicodedata MasterDerivedData (lit "ACME")
                           (lit "PRD") (registry acme_world)).1
       /\ table_name (success_result acme_table objs) = Some t
       /\ records_loaded (success_result acme_table objs) = length objs'
       /\ t ∈ tables (db r.2)
       /\ committed (db r.2) = <[t := objs']> (session (db acme_world))
       /\ session (db r.2) = committed (db r.2)
       /\ pending (db r.2) = [].
Proof.
  cbv zeta.
  set (call := CallCsv CsvMasterDerived (Some two_rows_csv)).
  set (objs := [[("DERIVED_ROLE"%string, lit "D1"); ("MASTER_ROLE"%string, lit "M1")];
                [("DERIVED_ROLE"%string, lit "D2"); ("MASTER_ROLE"%string, lit "M2")]]).
  assert (H : run_load unicodedata no_faults call (lit "ACME") (lit "PRD") acme_world
              = (inl (success_result acme_table objs),
                 (run_load unicodedata no_faults call (lit "ACME") (lit "PRD")
                    acme_world).2)).
  { vm_compute. reflexivity. }
  split; [by rewrite H|]. split; [reflexivity|].
  exact (load_success_replaces_table _ _ _ _ _ _ _ _ H eq_refl).
Defined.

Lemma load_again_gives_same_values_witness :
  let call := CallCsv CsvMasterDerived (Some two_rows_csv) in
  let r := run_load unicodedata no_faults call (lit "ACME") (lit "PRD") acme_world in
  exists res,
    r = (inl res, r.2)
    /\ pending (db acme_world) = []
    /\ exists w2,
         run_load unicodedata no_faults call (lit "ACME") (lit "PRD") r.2 = (inl res, w2)
         /\ registry w2 = registry r.2
         /\ column_values "DERIVED_ROLE" (rows_of (committed (db w2)) acme_table)
            = [Some (lit "D1"); Some (lit "D2")].
Proof.
  cbv zeta.
  set (call := CallCsv CsvMasterDerived (Some two_rows_csv)).
  set (objs := [[("DERIVED_ROLE"%string, lit "D1"); ("MASTER_ROLE"%string, lit "M1")];
                [("DERIVED_ROLE"%string, lit "D2"); ("MASTER_ROLE"%string, lit "M2")]]).
  assert (H : run_load unicodedata no_faults call (lit "ACME") (lit "PRD") acme_world
              = (inl (success_result acme_table objs),
                 (run_load unicodedata no_faults call (lit "ACME") (lit "PRD")
                    acme_world).2)).
  { vm_compute. reflexivity. }
  exists (success_result acme_table objs).
  split; [exact H|]. split; [reflexivity|].
  destruct (load_again_gives_same_values _ _ _ _ _ _ _ _ H eq_refl)
    as (w2 & Hrun & Hreg & _ & _ & _ & Hrows).
  exists w2. split; [exact Hrun|]. split; [exact Hreg|].
  destruct (Hrows acme_table) as [_ Hcols].
  rewrite (Hcols "DERIVED_ROLE"%string) by discriminate.
  vm_compute. reflexivity.
Defined.

Lemma csv_full_rows_are_mapped_witness :
  let csv_text := List.map Byte.to_N two_rows_csv in
  let header := [lit "derived"; lit "master"] in
  let data := [[lit "D1"; lit "M1"]; [lit "D2"; lit "M2"; lit "extra"]] in
  decode_csv_content two_rows_csv = inl csv_text
  /\ csv_reader (splitlines csv_text) = (header :: data, None)
  /\ Forall (fun r => (required_columns CsvMasterDerived <= length r)%nat) data
  /\ exists objs,
       parse_csv (field_map CsvMasterDerived) two_rows_csv = inl objs
       /\ Forall2
            (fun o r =>
               List.map fst o = List.map fst (field_map CsvMasterDerived)
               /\ forall f i, In (f, i) (field_map CsvMasterDerived) ->
                    column o f = r !! i /\ is_Some (r !! i))
            objs data.
Proof.
  cbv zeta.
  assert (H1 : decode_csv_content two_rows_csv = inl (List.map Byte.to_N two_rows_csv)).
  { vm_compute. reflexivity. }
  assert (H2 : csv_reader (splitlines (List.map Byte.to_N two_rows_csv))
               = ([lit "derived"; lit "master"]
                    :: [[lit "D1"; lit "M1"]; [lit "D2"; lit "M2"; lit "extra"]], None)).
  { vm_compute. reflexivity. }
  assert (H3 : Forall (fun r => (required_columns CsvMasterDerived <= length r)%nat)
                 [[lit "D1"; lit "M1"]; [lit "D2"; lit "M2"; lit "extra"]]).
  { repeat constructor. }
  split; [exact H1|]. split; [exact H2|]. split; [exact H3|].
  exact (csv_full_rows_are_mapped CsvMasterDerived two_rows_csv _ _ _ H1 H2 H3).
Defined.

Lemma tablename_determines_kind_witness :
  get_tablename unicodedata AuthData (lit "A B") (lit "C")
  = get_tablename unicodedata AuthData (lit "A") (lit "B C")
  /\ AuthData = AuthData.
Proof.
  assert (H : get_tablename unicodedata AuthData (lit "A B") (lit "C")
              = get_tablename unicodedata AuthData (lit "A") (lit "B C")).
  { vm_compute. reflexivity. }
  split; [exact H|].
  exact (tablename_determines_kind _ _ _ _ _ _ _ H).
Defined.

Lemma empty_registry_sound U : registry_sound U empty_registry.
Proof. intros t m H. simpl in H. by rewrite lookup_empty in H. Defined.

Lemma create_model_keeps_registry_sound_witness :
  registry_sound unicodedata empty_registry
  /\ base (create_model unicodedata UserMaster (lit "ACME") (lit "PRD") empty_registry).1
     = base_of UserMaster
  /\ registry_sound unicodedata
       (create_model unicodedata UserMaster (lit "ACME") (lit "PRD") empty_registry).2.
Proof.
  pose proof (create_model_keeps_registry_sound unicodedata UserMaster
                (lit "ACME") (lit "PRD") empty_registry
                (empty_registry_sound unicodedata)) as (H1 & _ & H3).
  split; [apply empty_registry_sound|]. split; [exact H1|exact H3].
Defined.

Lemma loads_never_drop_or_overwrite_witness :
  let calls := [(no_faults, CallCsv CsvMasterDerived (Some short_row_csv),
                 lit "ACME", lit "PRD");
                (no_faults, CallXml (Some (document [header_R1])), lit "X", lit "Y")] in
  acme_table ∈ tables (db acme_world)
  /\ tables (db acme_world) ⊆ tables (db (run_loads unicodedata calls acme_world)).
Proof.
  cbv zeta. split.
  - unfold acme_world. cbn [db tables]. set_solver.
  - exact (proj2 (loads_never_drop_or_overwrite unicodedata _ acme_world)).
Defined.

Lemma loads_construct_each_class_once_witness :
  let calls := [(no_faults, CallCsv CsvMasterDerived (Some two_rows_csv),
                 lit "A B", lit "C");
                (no_faults, CallCsv CsvMasterDerived (Some two_rows_csv),
                 lit "A", lit "B C")] in
  constructed_once (registry empty_world)
  /\ constructed_once (registry (run_loads unicodedata calls empty_world)).
Proof.
  cbv zeta.
  assert (H : constructed_once (registry empty_world)).
  { split; simpl.
    - apply NoDup_nil_2.
    - intros m Hm. by apply not_elem_of_nil in Hm. }
  split; [exact H|].
  exact (loads_construct_each_class_once unicodedata _ empty_world H).
Defined.

Lemma tablename_is_plain_identifier_witness :
  extends_ascii unicodedata = true
  /\ Forall (fun c => c < 128) (lit "Acme Corp.")
  /\ Forall (fun c => c < 128) (lit "prd-01")
  /\ forallb settled
       (get_tablename unicodedata UserRoleMap (lit "Acme Corp.") (lit "prd-01")) = true.
Proof.
  assert (H1 : extends_ascii unicodedata = true) by (vm_compute; reflexivity).
  assert (H2 : Forall (fun c => c < 128) (lit "Acme Corp."))
    by (vm_compute; repeat constructor).
  assert (H3 : Forall (fun c => c < 128) (lit "prd-01"))
    by (vm_compute; repeat constructor).
  repeat (split; [assumption|]).
  exact (proj1 (tablename_is_plain_identifier unicodedata UserRoleMap _ _ H1 H2 H3)).
Defined.

Lemma tablename_ignores_case_and_spacing_witness :
  extends_ascii unicodedata = true
  /\ get_tablename unicodedata LiceData (List.map ascii_toupper (lit "Acme co"))
       (List.map ascii_toupper (lit "prd"))
     = get_tablename unicodedata LiceData (lit "Acme co") (lit "prd").
Proof.
  assert (H1 : extends_ascii unicodedata = true) by (vm_compute; reflexivity).
  split; [exact H1|].
  exact (proj1 (tablename_ignores_case_and_spacing unicodedata LiceData
                  (lit "Acme co") (lit "prd") H1)).
Defined.

Lemma xml_ignored_items_change_nothing_witness :
  let root :=
    Elem (lit "{http://www.sap.com/abapxml}abap") None
      [Elem (lit "{http://www.sap.com/abapxml}values") None
         [Elem (lit "DOWNLOAD") None [stray_item; header_R1; detail_R1]]] in
  is_ignored stray_item = true
  /\ Exists (fun it => is_detail it = true) (findall_items root)
  /\ parse_lice_xml (WellFormed root)
     = inl (items_loop
              (List.filter (fun it => negb (is_ignored it)) (findall_items root))).2.
Proof.
  cbv zeta. split; [vm_compute; reflexivity|].
  match goal with |- Exists ?P ?l /\ _ => assert (H : Exists P l) end.
  { apply Exists_cons_tl, Exists_cons_tl, Exists_cons_hd. vm_compute. reflexivity. }
  split; [exact H|].
  exact (xml_ignored_items_change_nothing _ H).
Defined.

Lemma xml_detail_without_role_keeps_own_fields_witness :
  is_detail nameless_detail = true
  /\ agr_name_of nameless_detail = []
  /\ (items_loop ([header_R1] ++ nameless_detail :: [])).2
     = (items_loop [header_R1]).2
       ++ lice_data_obj ∅ [] (object_of nameless_detail) nameless_detail
       :: (fold_left item_step [] ((items_loop [header_R1]).1, [])).2.
Proof.
  assert (H1 : is_detail nameless_detail = true) by (vm_compute; reflexivity).
  assert (H2 : agr_name_of nameless_detail = []) by (vm_compute; reflexivity).
  split; [exact H1|]. split; [exact H2|].
  exact (xml_detail_without_role_keeps_own_fields [header_R1] nameless_detail [] H1 H2).
Defined.

Lemma csv_ascii_content_decodes_to_itself_witness :
  Forall (fun b => Byte.to_N b < 128) header_only_csv
  /\ decode_csv_content header_only_csv = inl (List.map Byte.to_N header_only_csv).
Proof.
  assert (H : Forall (fun b => Byte.to_N b < 128) header_only_csv).
  { vm_compute. repeat constructor. }
  split; [exact H|].
  exact (proj1 (csv_ascii_content_decodes_to_itself header_only_csv H)).
Defined.

Lemma csv_without_quotes_is_read_line_by_line_witness :
  let csv_text := List.map Byte.to_N two_rows_csv in
  decode_csv_content two_rows_csv = inl csv_text
  /\ Forall (fun c => c <> 34) csv_text
  /\ N.of_nat (length csv_text) <= field_limit
  /\ csv_reader (splitlines csv_text)
     = (List.map record_of_line (splitlines csv_text), None).
Proof.
  cbv zeta.
  assert (H1 : decode_csv_content two_rows_csv = inl (List.map Byte.to_N two_rows_csv)).
  { vm_compute. reflexivity. }
  assert (H2 : Forall (fun c => c <> 34) (List.map Byte.to_N two_rows_csv)).
  { vm_compute. repeat (constructor; [discriminate|]). constructor. }
  assert (H3 : N.of_nat (length (List.map Byte.to_N two_rows_csv)) <= field_limit).
  { vm_compute. discriminate. }
  split; [exact H1|]. split; [exact H2|]. split; [exact H3|].
  exact (proj1 (csv_without_quotes_is_read_line_by_line
                  (field_map CsvMasterDerived) two_rows_csv _ H1 H2 H3)).
Defined.

Lemma configure_logging_replaces_handlers_witness :
  given None = false
  /\ handlers (configure_logging true (lit "20250101-120000") None (Some (lit "PRD"))
                 (configure_logging true (lit "20240101-120000") None None
                    fresh_logger).2).2
     = [StreamHandler ERROR;
        FileHandler (os_path_join_logs
                       (log_filename None (Some (lit "PRD")) (lit "20250101-120000")))
          INFO]
  /\ log_filename None (Some (lit "PRD")) (lit "20250101-120000")
     = lit "app-" ++ lit "20250101-120000" ++ lit ".log".
Proof.
  split; [reflexivity|].
  pose proof (configure_logging_replaces_handlers true (lit "20250101-120000") None
                (Some (lit "PRD"))
                (configure_logging true (lit "20240101-120000") None None
                   fresh_logger).2) as (H1 & _ & H3).
  split; [exact H1|exact (H3 eq_refl)].
Defined.

Lemma provisioning_failure_keeps_class_cached_witness :
  let F := {| create_fault := Some (lit "permission denied");
              delete_fault := None; commit_fault := None |} in
  let call := CallCsv CsvMasterDerived (Some two_rows_csv) in
  has_table (db empty_world)
    (tablename (create_model unicodedata (kind_of_call call) (lit "ACME") (lit "PRD")
                  (registry empty_world)).1) = false
  /\ exists w',
       run_load unicodedata F call (lit "ACME") (lit "PRD") empty_world
       = (inr (DBAPIError (lit "permission denied")), w')
       /\ db w' = db empty_world
       /\ dynamic_models_cache (registry w')
            !! get_tablename unicodedata (kind_of_call call) (lit "ACME") (lit "PRD")
          = Some (create_model unicodedata (kind_of_call call) (lit "ACME") (lit "PRD")
                    (registry empty_world)).1.
Proof.
  cbv zeta.
  match goal with |- ?A /\ _ => assert (H : A) by (vm_compute; reflexivity) end.
  split; [exact H|].
  exact (provisioning_failure_keeps_class_cached unicodedata
           {| create_fault := Some (lit "permission denied");
              delete_fault := None; commit_fault := None |}
           (CallCsv CsvMasterDerived (Some two_rows_csv)) (lit "ACME") (lit "PRD")
           empty_world (lit "permission denied")
           (parse_csv (field_map CsvMasterDerived) two_rows_csv)
           eq_refl eq_refl H).
Defined.
